(** * SF_record_search: a shallow embedding of [SF_record_search_4.py]

    The program is a command-line wizard around the [sfdx] tool.  Its own
    logic is string templating, tolerant decoding of JSON answers and a
    linear sequence of prompts.  The embedding keeps the structure of the
    source:

    - [PyStr]: the [str] methods the program calls, on ASCII text;
    - [Json]: decoded JSON values and the dynamic operations applied to them
      ([.get], subscripting, iteration, truthiness), each raising the exception
      Python raises;
    - [Env]: what the interpreter and the outside world provide
      ([json.loads], [subprocess.run], [int]);
    - a state-and-exception monad [M] over a [world] holding the keyboard
      input still to come, the terminal output, the log file and the commands
      run so far;
    - the functions of the source, under their own names;
    - [main] as a transition function between the program points of its
      loop body;
    - [Demo]: scripted environments on which the model runs.

    The properties follow the definitions: the shape of the query, what
    each function makes of the answers of the tool, the transitions of the
    wizard and the termination of [main]. *)

From Stdlib Require Import ZArith List String Ascii Bool Lia DecimalString.
Import ListNotations.
Local Open Scope list_scope.
Local Open Scope string_scope.
Set Warnings "-register-all".

(* ===================================================================== *)
(** ** Text *)
(* ===================================================================== *)

Module PyStr.

(** Characters above 127 are ordinary characters here: neither white
    space nor letters with a case. *)

Definition nl : string := String "010"%char EmptyString.
Definition dquote : string := String "034"%char EmptyString.

(** [str.isspace] on one ASCII character: tab, line feed, vertical tab,
    form feed, carriage return, the four separators 28..31 and space. *)
Definition is_space (c : ascii) : bool :=
  let n := nat_of_ascii c in
  ((9 <=? n)%nat && (n <=? 13)%nat) || ((28 <=? n)%nat && (n <=? 32)%nat).

Definition lower_char (c : ascii) : ascii :=
  let n := nat_of_ascii c in
  if (65 <=? n)%nat && (n <=? 90)%nat then ascii_of_nat (n + 32) else c.

(** [s.lower()] *)
Fixpoint lower (s : string) : string :=
  match s with
  | EmptyString => EmptyString
  | String c r => String (lower_char c) (lower r)
  end.

Fixpoint lstrip (s : string) : string :=
  match s with
  | EmptyString => EmptyString
  | String c r => if is_space c then lstrip r else s
  end.

Fixpoint rstrip (s : string) : string :=
  match s with
  | EmptyString => EmptyString
  | String c r =>
      match rstrip r with
      | EmptyString => if is_space c then EmptyString else String c EmptyString
      | r' => String c r'
      end
  end.

(** [s.strip()] *)
Definition strip (s : string) : string := rstrip (lstrip s).

(** [s.startswith(p)] *)
Fixpoint startswith (p s : string) : bool :=
  match p with
  | EmptyString => true
  | String a p' =>
      match s with
      | EmptyString => false
      | String b s' => Ascii.eqb a b && startswith p' s'
      end
  end.

(** [s.split()]: the maximal runs of characters that are not white space. *)
Fixpoint split (s : string) : list string :=
  match s with
  | EmptyString => []
  | String c r =>
      if is_space c then split r
      else match r with
           | EmptyString => [String c EmptyString]
           | String d _ =>
               if is_space d then String c EmptyString :: split r
               else match split r with
                    | w :: ws => String c w :: ws
                    | [] => [String c EmptyString]
                    end
           end
  end.

(** [s.split(sep)] for a separator of one character: never empty. *)
Fixpoint split_on (sep : ascii) (s : string) : list string :=
  match s with
  | EmptyString => [EmptyString]
  | String c r =>
      if Ascii.eqb c sep then EmptyString :: split_on sep r
      else match split_on sep r with
           | w :: ws => String c w :: ws
           | [] => [String c EmptyString]
           end
  end.

(** [sep.join(l)] *)
Definition join (sep : string) (l : list string) : string := String.concat sep l.

(** Iterating over a [str] yields its characters as strings of length one. *)
Fixpoint chars (s : string) : list string :=
  match s with
  | EmptyString => []
  | String c r => String c EmptyString :: chars r
  end.

(** [needle in hay] *)
Fixpoint contains (needle hay : string) : bool :=
  startswith needle hay ||
  match hay with
  | EmptyString => false
  | String _ r => contains needle r
  end.

(** [str(n)] for an [int]. *)
Definition of_int (n : Z) : string := NilZero.string_of_int (Z.to_int n).

(** Whether no string occurs twice in [l]. *)
Fixpoint nodupb (l : list string) : bool :=
  match l with
  | [] => true
  | x :: r => negb (existsb (String.eqb x) r) && nodupb r
  end.

(** [x in l] for a list of strings. *)
Definition mem (x : string) (l : list string) : bool :=
  existsb (String.eqb x) l.

End PyStr.
Import PyStr.

(* ===================================================================== *)
(** ** Exceptions *)
(* ===================================================================== *)

Inductive exn : Set :=
| EOFError
| KeyboardInterrupt
| ValueError
| AttributeError
| TypeError
| KeyError
| JSONDecodeError
| PrettyTableError.

Definition exn_eqb (a b : exn) : bool :=
  match a, b with
  | EOFError, EOFError | KeyboardInterrupt, KeyboardInterrupt
  | ValueError, ValueError | AttributeError, AttributeError
  | TypeError, TypeError | KeyError, KeyError
  | JSONDecodeError, JSONDecodeError | PrettyTableError, PrettyTableError => true
  | _, _ => false
  end.

(** The outcome of evaluating an expression: a value or a raised exception. *)
Inductive result (A : Type) : Type :=
| Ok (a : A)
| Raise (e : exn).
Arguments Ok {A} a.
Arguments Raise {A} e.

Definition rbind {A B} (c : result A) (k : A -> result B) : result B :=
  match c with
  | Ok a => k a
  | Raise e => Raise e
  end.

Notation "'let?' x ':=' c 'in' k" := (rbind c (fun x => k))
  (at level 10, x pattern, c at level 100, k at level 200).

(** [try: c  except (e1, ..., en): h] *)
Definition try_except {A} (c : result A) (caught : list exn) (h : result A) : result A :=
  match c with
  | Ok a => Ok a
  | Raise e => if existsb (exn_eqb e) caught then h else Raise e
  end.

(* ===================================================================== *)
(** ** Decoded JSON *)
(* ===================================================================== *)

Module Json.

(** A Python [float]: only whether it is zero matters to the program. *)
Inductive pyfloat : Set :=
| Fnan
| Finf (negative : bool)
| Fdec (mantissa exponent : Z).

(** What [json.loads] returns.  An object keeps its keys in order; the
    decoder returns each key once. *)
Inductive json : Type :=
| JNull
| JBool (b : bool)
| JInt (n : Z)
| JFloat (f : pyfloat)
| JStr (s : string)
| JArr (l : list json)
| JObj (kv : list (string * json)).

Fixpoint dict_get (kv : list (string * json)) (k : string) : option json :=
  match kv with
  | [] => None
  | (k', v) :: rest => if String.eqb k' k then Some v else dict_get rest k
  end.

(** [j.get(k, default)]: only a [dict] has the method. *)
Definition py_get (j : json) (k : string) (default : json) : result json :=
  match j with
  | JObj kv => Ok (match dict_get kv k with Some v => v | None => default end)
  | _ => Raise AttributeError
  end.

(** [j[k]] for a string [k]: [KeyError] on a [dict] without the key,
    [TypeError] on anything that is not a [dict]. *)
Definition py_getitem (j : json) (k : string) : result json :=
  match j with
  | JObj kv => match dict_get kv k with Some v => Ok v | None => Raise KeyError end
  | _ => Raise TypeError
  end.

(** [for x in j]: the elements of a list, the keys of a [dict], the
    characters of a [str]; nothing else is iterable. *)
Definition py_iter (j : json) : result (list json) :=
  match j with
  | JArr l => Ok l
  | JObj kv => Ok (map (fun p => JStr (fst p)) kv)
  | JStr s => Ok (map JStr (chars s))
  | _ => Raise TypeError
  end.

(** [bool(j)] *)
Definition truthy (j : json) : bool :=
  match j with
  | JNull => false
  | JBool b => b
  | JInt n => negb (Z.eqb n 0)
  | JFloat (Fdec m _) => negb (Z.eqb m 0)
  | JFloat _ => true
  | JStr s => negb (String.eqb s EmptyString)
  | JArr l => match l with [] => false | _ => true end
  | JObj kv => match kv with [] => false | _ => true end
  end.

(** [j == s] for a [str] [s]: only an equal [str] compares equal. *)
Definition eq_str (j : json) (s : string) : bool :=
  match j with
  | JStr t => String.eqb t s
  | _ => false
  end.

(** [any(f(x) for x in l)]: stops at the first true value; an exception
    raised before that propagates. *)
Fixpoint py_any {A} (f : A -> result bool) (l : list A) : result bool :=
  match l with
  | [] => Ok false
  | x :: rest =>
      let? b := f x in
      if b then Ok true else py_any f rest
  end.

(** [[f(x) for x in l]] *)
Fixpoint py_map {A B} (f : A -> result B) (l : list A) : result (list B) :=
  match l with
  | [] => Ok []
  | x :: rest =>
      let? y := f x in
      let? ys := py_map f rest in
      Ok (y :: ys)
  end.

End Json.
Import Json.

(* ===================================================================== *)
(** ** The interpreter and the outside world *)
(* ===================================================================== *)

(** How [subprocess.run(..., check=True, timeout=...)] ends: the three
    outcomes that lines 16-23 provide for.  What else the call may raise (a
    command line that cannot be started, output that is not text) is
    outside this model, and so is what [json.loads] may raise besides
    [JSONDecodeError]. *)
Inductive completed : Set :=
| Completed (stdout : string)
| TimeoutExpired
| CalledProcessError (stderr : string).

(** The parts of the run that are not code of the program: the JSON
    decoder ([None] when it raises [JSONDecodeError]), the child process
    (its outcome may depend on the commands run before, on the command line
    and on the timeout in seconds) and the [int] constructor on text
    ([None] when it raises [ValueError]). *)
Class Env : Type := {
  json_loads : string -> option json;
  subprocess_run : list string -> string -> Z -> completed;
  py_int : string -> option Z
}.

(** [PrettyTable]: the columns, the alignment and the rows added so far. *)
Record pretty_table : Type := mkTable {
  field_names : list string;
  align : string;
  rows : list (list json)
}.

Inductive input_event : Set :=
| Line (s : string)      (* a line typed at a prompt *)
| CtrlC.                 (* an interrupt while the prompt waits *)

Inductive output : Type :=
| Prompt (s : string)
| Printed (s : string)
| PrintedTable (t : pretty_table).

Inductive level : Set := INFO | ERROR.

Record world : Type := mkWorld {
  stdin : list input_event;          (* input still to come *)
  stdout : list output;              (* oldest first *)
  logfile : list (level * string);   (* SF_record_search.log, oldest first *)
  commands : list string             (* command lines run, oldest first *)
}.

Definition M (A : Type) : Type := world -> result A * world.

Definition ret {A} (a : A) : M A := fun w => (Ok a, w).

Definition bind {A B} (c : M A) (k : A -> M B) : M B :=
  fun w =>
    match c w with
    | (Ok a, w') => k a w'
    | (Raise e, w') => (Raise e, w')
    end.

Notation "x <- c ;; k" := (bind c (fun x => k))
  (at level 61, c at next level, right associativity).
Notation "c ;; k" := (bind c (fun _ => k))
  (at level 61, right associativity).

Definition lift {A} (r : result A) : M A := fun w => (r, w).

(** [try: c  except (e1, ..., en): h]; what [c] did before raising stays done. *)
Definition try_except_M {A} (c : M A) (caught : list exn) (h : M A) : M A :=
  fun w =>
    match c w with
    | (Ok a, w') => (Ok a, w')
    | (Raise e, w') => if existsb (exn_eqb e) caught then h w' else (Raise e, w')
    end.

Definition emit (o : output) : M unit :=
  fun w => (Ok tt, mkWorld (stdin w) (stdout w ++ [o]) (logfile w) (commands w)).

Definition print (s : string) : M unit := emit (Printed s).
Definition print_table (t : pretty_table) : M unit := emit (PrintedTable t).

Definition logging (l : level) (msg : string) : M unit :=
  fun w => (Ok tt, mkWorld (stdin w) (stdout w) (logfile w ++ [(l, msg)]) (commands w)).

(** [input(prompt)]: end of input raises [EOFError]. *)
Definition input (prompt : string) : M string :=
  fun w =>
    let w' rest := mkWorld rest (stdout w ++ [Prompt prompt]) (logfile w) (commands w) in
    match stdin w with
    | [] => (Raise EOFError, w' [])
    | Line s :: rest => (Ok s, w' rest)
    | CtrlC :: rest => (Raise KeyboardInterrupt, w' rest)
    end.

(** [json.loads(text)] *)
Definition loads `{Env} (text : string) : result json :=
  match json_loads text with
  | Some j => Ok j
  | None => Raise JSONDecodeError
  end.

(* ===================================================================== *)
(** ** The functions of the program *)
(* ===================================================================== *)

Section Program.
Context `{Env}.

(** [run_command(command, timeout=30)], lines 13-23. *)
Definition run_command_timeout (command : string) (timeout : Z) : M string :=
  fun w =>
    let ran := mkWorld (stdin w) (stdout w) (logfile w) (commands w ++ [command]) in
    match subprocess_run (commands w) command timeout with
    | Completed out => (Ok (strip out), ran)
    | TimeoutExpired =>
        (logging ERROR ("Command timed out: " ++ command) ;;
         ret "Error: Command timed out.") ran
    | CalledProcessError stderr =>
        (logging ERROR ("Command failed: " ++ strip stderr) ;;
         ret ("Error: " ++ strip stderr)) ran
    end.

Definition run_command (command : string) : M string :=
  run_command_timeout command 30.

(** *** [authenticate_org], lines 25-35 *)

Definition auth_command : string := "sfdx force:auth:list --json".

(** [org.get("alias") == org_alias] *)
Definition alias_is (org_alias : string) (org : json) : result bool :=
  let? a := py_get org "alias" JNull in
  Ok (eq_str a org_alias).

(** The body of the [try], lines 32-33. *)
Definition authenticated (response org_alias : string) : result bool :=
  let? j := loads response in
  let? authenticated_orgs := py_get j "result" (JArr []) in
  let? orgs := py_iter authenticated_orgs in
  py_any (alias_is org_alias) orgs.

Definition authenticate_org (org_alias : string) : M bool :=
  response <- run_command auth_command ;;
  if startswith "Error:" response then ret false
  else lift (try_except (authenticated response org_alias)
               [JSONDecodeError; KeyError] (Ok false)).

(** *** [fetch_objects], lines 37-46 *)

Definition list_command (org_alias : string) : string :=
  "sfdx force:schema:sobject:list --target-org " ++ org_alias ++ " --json".

Definition fetch_objects (org_alias : string) : M json :=
  response <- run_command (list_command org_alias) ;;
  if startswith "Error:" response then ret (JArr [])
  else lift (try_except (let? j := loads response in py_get j "result" (JArr []))
               [JSONDecodeError; KeyError] (Ok (JArr []))).

(** *** [describe_object], lines 48-73 *)

Definition describe_command (org_alias object_name : string) : string :=
  "sfdx sobject:describe -o " ++ org_alias ++ " -s " ++ object_name ++ " --json".

Definition check_mark : string := "✓".

(** [not field.get("nillable", True) and field.get("createable", False)],
    taken as a condition (line 63). *)
Definition is_required (field : json) : result bool :=
  let? nillable := py_get field "nillable" (JBool true) in
  if negb (truthy nillable) then
    let? createable := py_get field "createable" (JBool false) in
    Ok (truthy createable)
  else Ok false.

Definition add_row (t : pretty_table) (row : list json) : pretty_table :=
  mkTable (field_names t) (align t) (rows t ++ [row]).

(** The loop of lines 62-66, from the table and the list built so far. *)
Fixpoint describe_rows (fields : list json) (table : pretty_table)
    (required_fields : list json) : result (pretty_table * list json) :=
  match fields with
  | [] => Ok (table, required_fields)
  | field :: rest =>
      let? req := is_required field in
      let is_required := if req then check_mark else EmptyString in
      let? name := py_getitem field "name" in
      let? type := py_getitem field "type" in
      let table := add_row table [name; type; JStr is_required] in
      let? required_fields :=
        (if req then
           let? name := py_getitem field "name" in Ok (required_fields ++ [name])%list
         else Ok required_fields) in
      describe_rows rest table required_fields
  end.

Definition describe_table : pretty_table :=
  mkTable ["Field Name"; "Type"; "Required"] "l" [].

Definition describe_object (org_alias object_name : string)
    : M (list json * list json) :=
  response <- run_command (describe_command org_alias object_name) ;;
  if startswith "Error:" response then
    print "Error: Unable to describe the object." ;;
    ret ([], [])
  else
    try_except_M
      (fields <- lift (let? j := loads response in
                       let? r := py_getitem j "result" in
                       py_getitem r "fields") ;;
       built <- lift (let? l := py_iter fields in
                      describe_rows l describe_table []) ;;
       print (nl ++ "Available Fields:") ;;
       print_table (fst built) ;;
       names <- lift (let? l := py_iter fields in
                      py_map (fun field => py_getitem field "name") l) ;;
       ret (names, snd built))
      [JSONDecodeError; KeyError]
      (logging ERROR "Error parsing describe results." ;;
       ret ([], [])).

(** *** [SF_record_search], lines 75-106 *)

(** The [fields] argument: [None], the text typed at the prompt (which
    [main] passes on as it is) or a list of names. *)
Inductive fields_arg : Type :=
| FNone
| FStr (s : string)
| FList (l : list string).

(** The [limit] argument: [None], an [int] or text. *)
Inductive limit_arg : Type :=
| LNone
| LInt (n : Z)
| LStr (s : string).

Inductive search_result : Type :=
| RText (s : string)
| RTable (t : pretty_table).

(** [fields or ["Id", "Name"]] (line 79), as the sequence later iterated:
    a [str] is iterated character by character. *)
Definition fields_or_default (fields : fields_arg) : list string :=
  match fields with
  | FNone => ["Id"; "Name"]
  | FStr EmptyString => ["Id"; "Name"]
  | FStr s => chars s
  | FList [] => ["Id"; "Name"]
  | FList l => l
  end.

(** Line 80. *)
Definition limit_clause (limit : limit_arg) : string :=
  match limit with
  | LNone => EmptyString
  | LStr s => if mem s ["All"; "all"] then EmptyString else "LIMIT " ++ s
  | LInt n => "LIMIT " ++ of_int n
  end.

Definition find_clause (term : string) : string := "FIND {" ++ term ++ "}".

(** Lines 83-85. *)
Definition keyword_conditions (keyword : string) : string :=
  let keyword_parts := split keyword in
  join " OR " (map find_clause keyword_parts) ++ " OR " ++ find_clause keyword.

(** Line 87: the query for a keyword that passed the test of line 77. *)
Definition build_query (object_name keyword : string) (limit : limit_arg)
    (fields : fields_arg) : string :=
  keyword_conditions keyword ++ " RETURNING " ++ object_name ++ "("
    ++ join ", " (fields_or_default fields) ++ " " ++ limit_clause limit ++ ")".

(** Line 90. *)
Definition search_command (query target_org : string) : string :=
  "sfdx force:data:soql:query --query " ++ dquote ++ query ++ dquote
    ++ " --target-org " ++ target_org ++ " --json".

(** [PrettyTable(fields)]: the library refuses repeated column names. *)
Definition new_table (names : list string) : result pretty_table :=
  if nodupb names then Ok (mkTable names "l" []) else Raise PrettyTableError.

(** Lines 95-103. *)
Definition search_table (fields : list string) (search_results : string)
    : result search_result :=
  let? j := loads search_results in
  let? r := py_get j "result" (JObj []) in
  let? results := py_get r "records" (JArr []) in
  if truthy results then
    let? table := new_table fields in
    let? records := py_iter results in
    let? rws := py_map (fun record =>
                  py_map (fun field => py_get record field (JStr "N/A")) fields)
                  records in
    Ok (RTable (fold_left add_row rws table))
  else Ok (RText "No records found.").

Definition SF_record_search (object_name target_org : string)
    (keyword : option string) (limit : limit_arg) (fields : fields_arg)
    : M search_result :=
  match keyword with
  | None | Some EmptyString => ret (RText "Error: Search keyword is required.")
  | Some keyword =>
      let query := build_query object_name keyword limit fields in
      logging INFO ("Executing query: " ++ query) ;;
      search_results <- run_command (search_command query target_org) ;;
      if startswith "Error:" search_results then ret (RText search_results)
      else
        try_except_M
          (lift (search_table (fields_or_default fields) search_results))
          [JSONDecodeError; KeyError]
          (logging ERROR "Error parsing search results." ;;
           ret (RText "Error: Unable to parse search results."))
  end.

End Program.

(* ===================================================================== *)
(** ** The wizard: [main], lines 108-176 *)
(* ===================================================================== *)

(** [session_state]: a dictionary with the five keys below, each absent
    ([None]) or holding the value the wizard stored.  ["fields"] holds a
    list of names or [None]; ["limit"] holds an [int] or [None]. *)
Record session_state : Type := mkSession {
  ss_org_alias : option string;
  ss_object_name : option string;
  ss_fields : option (option (list string));
  ss_keyword : option string;
  ss_limit : option (option Z)
}.

(** [{}] and the result of [session_state.clear()] *)
Definition empty_session : session_state := mkSession None None None None None.

(** [session_state.pop("org_alias", None)] *)
Definition pop_org_alias (st : session_state) : session_state :=
  mkSession None (ss_object_name st) (ss_fields st) (ss_keyword st) (ss_limit st).

Definition set_org_alias (st : session_state) (v : string) : session_state :=
  mkSession (Some v) (ss_object_name st) (ss_fields st) (ss_keyword st) (ss_limit st).
Definition set_object_name (st : session_state) (v : string) : session_state :=
  mkSession (ss_org_alias st) (Some v) (ss_fields st) (ss_keyword st) (ss_limit st).
Definition set_fields (st : session_state) (v : option (list string)) : session_state :=
  mkSession (ss_org_alias st) (ss_object_name st) (Some v) (ss_keyword st) (ss_limit st).
Definition set_keyword (st : session_state) (v : string) : session_state :=
  mkSession (ss_org_alias st) (ss_object_name st) (ss_fields st) (Some v) (ss_limit st).
Definition set_limit (st : session_state) (v : option Z) : session_state :=
  mkSession (ss_org_alias st) (ss_object_name st) (ss_fields st) (ss_keyword st) (Some v).

(** The program points of the loop body, each with the local variables
    assigned so far.  [CollectOrgAlias] is the top of the loop, where every
    [continue] leads; [Terminal] is after the loop. *)
Inductive point : Type :=
| CollectOrgAlias
| Authenticate (org_alias : string)
| CollectObjectName (org_alias : string)
| CollectFields (org_alias object_name : string)
| CollectKeyword (org_alias object_name : string) (fields : fields_arg)
| CollectLimit (org_alias object_name : string) (fields : fields_arg) (keyword : string)
| Execute (org_alias object_name : string) (fields : fields_arg) (keyword : string)
    (limit : limit_arg)
| Terminal.

(** [text.lower() == "start over"] *)
Definition start_over (text : string) : bool := String.eqb (lower text) "start over".

Definition print_result (r : search_result) : M unit :=
  match r with
  | RText s => print s
  | RTable t => print_table t
  end.

Section Wizard.
Context `{Env}.

(** The code from one program point to the next, inside the [try]. *)
Definition wizard_body (p : point) (st : session_state) : M (point * session_state) :=
  match p with
  | CollectOrgAlias =>
      print (nl ++ "Welcome to SF Record Search!") ;;
      match ss_org_alias st with
      | None =>
          line <- input "Enter Salesforce org alias (e.g., MyOrg): " ;;
          let org_alias := strip line in
          if start_over org_alias then ret (CollectOrgAlias, empty_session)
          else ret (Authenticate org_alias, set_org_alias st org_alias)
      | Some org_alias => ret (Authenticate org_alias, st)
      end
  | Authenticate org_alias =>
      ok <- authenticate_org org_alias ;;
      if negb ok then
        print "Error: Unable to authenticate. Try again." ;;
        ret (CollectOrgAlias, pop_org_alias st)
      else ret (CollectObjectName org_alias, st)
  | CollectObjectName org_alias =>
      match ss_object_name st with
      | None =>
          line <- input "Enter the object name (or part of it) to search: " ;;
          let object_name := strip line in
          if start_over object_name then ret (CollectOrgAlias, empty_session)
          else ret (CollectFields org_alias object_name, set_object_name st object_name)
      | Some object_name => ret (CollectFields org_alias object_name, st)
      end
  | CollectFields org_alias object_name =>
      match ss_fields st with
      | None =>
          line <- input "Enter fields to query (comma-separated, or 'all-required'): " ;;
          let fields := strip line in
          if start_over fields then ret (CollectOrgAlias, empty_session)
          else
            let stored :=
              if String.eqb (lower fields) "all-required" then None
              else Some (split_on ","%char fields) in
            ret (CollectKeyword org_alias object_name (FStr fields), set_fields st stored)
      | Some None => ret (CollectKeyword org_alias object_name FNone, st)
      | Some (Some l) => ret (CollectKeyword org_alias object_name (FList l), st)
      end
  | CollectKeyword org_alias object_name fields =>
      match ss_keyword st with
      | None =>
          line <- input "Enter keyword to search: " ;;
          let keyword := strip line in
          if start_over keyword then ret (CollectOrgAlias, empty_session)
          else ret (CollectLimit org_alias object_name fields keyword,
                    set_keyword st keyword)
      | Some keyword => ret (CollectLimit org_alias object_name fields keyword, st)
      end
  | CollectLimit org_alias object_name fields keyword =>
      match ss_limit st with
      | None =>
          line <- input "Enter the number of records to return (or 'All' for no limit): " ;;
          let limit := strip line in
          if start_over limit then ret (CollectOrgAlias, empty_session)
          else
            stored <- (if mem (lower limit) ["all"; EmptyString] then ret None
                       else match py_int limit with
                            | Some n => ret (Some n)
                            | None => lift (Raise ValueError)
                            end) ;;
            ret (Execute org_alias object_name fields keyword (LStr limit),
                 set_limit st stored)
      | Some None => ret (Execute org_alias object_name fields keyword LNone, st)
      | Some (Some n) => ret (Execute org_alias object_name fields keyword (LInt n), st)
      end
  | Execute org_alias object_name fields keyword limit =>
      print (nl ++ "Searching..." ++ nl) ;;
      result <- SF_record_search object_name org_alias (Some keyword) limit fields ;;
      print_result result ;;
      ret (Terminal, st)
  | Terminal => ret (Terminal, st)
  end.

(** One transition: the body under the handler of lines 174-176, which
    catches [KeyboardInterrupt] and nothing else. *)
Definition wizard_step (p : point) (st : session_state) : M (point * session_state) :=
  try_except_M (wizard_body p st) [KeyboardInterrupt]
    (print (nl ++ "Exiting. Goodbye!") ;; ret (Terminal, st)).

(** The loop, for at most [fuel] transitions; [None] when they do not
    suffice. *)
Fixpoint main_loop (fuel : nat) (p : point) (st : session_state)
    : M (option session_state) :=
  match p with
  | Terminal => ret (Some st)
  | _ =>
      match fuel with
      | O => ret None
      | S fuel' =>
          next <- wizard_step p st ;;
          main_loop fuel' (fst next) (snd next)
      end
  end.

Definition main (fuel : nat) : M (option session_state) :=
  main_loop fuel CollectOrgAlias empty_session.

End Wizard.

(* ===================================================================== *)
(** ** A scripted environment, for running the model on examples *)
(* ===================================================================== *)

Module Demo.

Fixpoint assoc {A} (k : string) (l : list (string * A)) : option A :=
  match l with
  | [] => None
  | (k', v) :: rest => if String.eqb k' k then Some v else assoc k rest
  end.

(** An environment given by two tables: how each command line ends (a
    command not listed fails) and what each answer decodes to (a text not
    listed is not JSON).  [int] reads an optional minus sign and decimal
    digits. *)
Definition scripted (runs : list (string * completed))
    (decodes : list (string * json)) : Env := {|
  json_loads text := assoc text decodes;
  subprocess_run _ command _ :=
    match assoc command runs with
    | Some outcome => outcome
    | None => CalledProcessError "unknown command"
    end;
  py_int text := option_map Z.of_int (NilZero.int_of_string text)
|}.

Definition q (s : string) : string := dquote ++ s ++ dquote.

(** [{"result": [{"alias": "MyOrg"}]}] *)
Definition auth_text : string :=
  "{" ++ q "result" ++ ": [{" ++ q "alias" ++ ": " ++ q "MyOrg" ++ "}]}".
Definition auth_json : json :=
  JObj [("result", JArr [JObj [("alias", JStr "MyOrg")]])].

(** [{"result": [1, {"alias": "MyOrg"}]}] *)
Definition odd_auth_text : string :=
  "{" ++ q "result" ++ ": [1, {" ++ q "alias" ++ ": " ++ q "MyOrg" ++ "}]}".
Definition odd_auth_json : json :=
  JObj [("result", JArr [JInt 1; JObj [("alias", JStr "MyOrg")]])].

(** [{"result": {"fields": [...]}}] with the three fields below; the
    decoder being a table, the text is abridged. *)
Definition describe_text : string :=
  "{" ++ q "result" ++ ": {" ++ q "fields" ++ ": [...]}}".
Definition field (name type : string) (nillable createable : bool) : json :=
  JObj [("name", JStr name); ("type", JStr type);
        ("nillable", JBool nillable); ("createable", JBool createable)].
Definition account_fields : list json :=
  [field "Id" "id" false false;
   field "Name" "string" false true;
   field "Phone" "phone" true true].
Definition describe_json : json :=
  JObj [("result", JObj [("fields", JArr account_fields)])].

(** [{"result": {"records": []}}] *)
Definition no_records_text : string :=
  "{" ++ q "result" ++ ": {" ++ q "records" ++ ": []}}".
Definition no_records_json : json :=
  JObj [("result", JObj [("records", JArr [])])].

Definition acme_query : string :=
  build_query "Account" "Acme Corp" (LInt 10) (FList ["Id"; "Name"]).

Definition decodes : list (string * json) :=
  [(auth_text, auth_json); (odd_auth_text, odd_auth_json);
   (describe_text, describe_json); (no_records_text, no_records_json)].

(** The org [MyOrg] is authenticated, [Account] has three fields and the
    search for "Acme Corp" finds nothing. *)
Definition env : Env :=
  scripted
    [(auth_command, Completed auth_text);
     (describe_command "MyOrg" "Account", Completed describe_text);
     (search_command acme_query "MyOrg", Completed no_records_text)]
    decodes.

(** Every command exits with status 0 after printing a line that starts
    with "Error:". *)
Definition shouting : Env := {|
  json_loads text := assoc text decodes;
  subprocess_run _ _ _ := Completed "Error: nothing to see";
  py_int text := option_map Z.of_int (NilZero.int_of_string text)
|}.

(** The auth list has an entry that is not an object before the org. *)
Definition odd : Env :=
  scripted [(auth_command, Completed odd_auth_text)] decodes.

Definition world0 (keys : list input_event) : world := mkWorld keys [] [] [].

(** [{"result": ["Account", "Contact"]}] *)
Definition list_text : string :=
  "{" ++ q "result" ++ ": [" ++ q "Account" ++ ", " ++ q "Contact" ++ "]}".
Definition list_json : json :=
  JObj [("result", JArr [JStr "Account"; JStr "Contact"])].

(** The org has two objects. *)
Definition listing : Env :=
  scripted [(list_command "MyOrg", Completed list_text)] [(list_text, list_json)].

(** A describe answer whose second field has no name; abridged as above. *)
Definition nameless_text : string :=
  "{" ++ q "result" ++ ": {" ++ q "fields" ++ ": [..., {" ++ q "type" ++ ": "
    ++ q "string" ++ "}]}}".
Definition nameless_json : json :=
  JObj [("result", JObj [("fields",
    JArr [field "Id" "id" false false; JObj [("type", JStr "string")]])])].
Definition nameless : Env :=
  scripted [(describe_command "MyOrg" "Account", Completed nameless_text)]
    [(nameless_text, nameless_json)].

(** [{"result": {"records": [{"Id": "001", "Name": "Acme"}, {"Id": "002"}]}}],
    abridged as above. *)
Definition found_text : string :=
  "{" ++ q "result" ++ ": {" ++ q "records" ++ ": [{...}, {...}]}}".
Definition found_records : list json :=
  [JObj [("Id", JStr "001"); ("Name", JStr "Acme")]; JObj [("Id", JStr "002")]].
Definition found_json : json :=
  JObj [("result", JObj [("records", JArr found_records)])].

(** The search for "Acme Corp" finds two records, the second without a name. *)
Definition found : Env :=
  scripted
    [(auth_command, Completed auth_text);
     (search_command acme_query "MyOrg", Completed found_text)]
    [(auth_text, auth_json); (found_text, found_json)].

End Demo.

(* ===================================================================== *)
(** ** The vocabulary of the statements *)
(* ===================================================================== *)

(** The world once the query is logged (line 88). *)
Definition logged (query : string) (w : world) : world :=
  mkWorld (stdin w) (stdout w) (logfile w ++ [(INFO, "Executing query: " ++ query)])
    (commands w).

(** [avoids c n]: the character [c] does not occur in [n]. *)
Fixpoint avoids (c : ascii) (n : string) : bool :=
  match n with
  | EmptyString => true
  | String d r => negb (Ascii.eqb d c) && avoids c r
  end.

(** [j] is a JSON object, a [dict] once decoded. *)
Definition is_object (j : json) : Prop :=
  match j with
  | JObj _ => True
  | _ => False
  end.

(** [has_alias org_alias entry]: the entry is an object whose "alias" is
    the string [org_alias], character for character. *)
Definition has_alias (org_alias : string) (entry : json) : Prop :=
  exists kv, entry = JObj kv /\ dict_get kv "alias" = Some (JStr org_alias).

(** [flag field k]: the value under [k] in a field record, if any. *)
Definition flag (field : json) (k : string) : option json :=
  match field with
  | JObj kv => dict_get kv k
  | _ => None
  end.

(** A field record as the tool returns it: an object with a name and a type. *)
Definition field_record (field : json) : Prop :=
  is_object field /\ flag field "name" <> None /\ flag field "type" <> None.

(** A flag is absent or a JSON boolean. *)
Definition boolean_flag (field : json) (k : string) : Prop :=
  flag field k = None \/ exists b, flag field k = Some (JBool b).

(** [field["name"]] and [field["type"]] of a field record. *)
Definition name_of (field : json) : json :=
  match flag field "name" with Some v => v | None => JNull end.
Definition type_of (field : json) : json :=
  match flag field "type" with Some v => v | None => JNull end.

(** The classification computed at line 63, as a boolean. *)
Definition required (field : json) : bool :=
  match is_required field with
  | Ok b => b
  | Raise _ => false
  end.

(** The row added at line 64. *)
Definition describe_row (field : json) : list json :=
  [name_of field; type_of field;
   JStr (if required field then check_mark else EmptyString)].

(** The decoded answer has no records: "result" is missing, or it is an
    object whose "records" is missing or the empty list. *)
Definition no_records (top : list (string * json)) : Prop :=
  dict_get top "result" = None
  \/ exists r, dict_get top "result" = Some (JObj r)
               /\ (dict_get r "records" = None \/ dict_get r "records" = Some (JArr [])).

(** The point [p] is a collection step that asks: its key is not in the
    session state. *)
Definition awaits_input (p : point) (st : session_state) : Prop :=
  match p with
  | CollectOrgAlias => ss_org_alias st = None
  | CollectObjectName _ => ss_object_name st = None
  | CollectFields _ _ => ss_fields st = None
  | CollectKeyword _ _ _ => ss_keyword st = None
  | CollectLimit _ _ _ _ => ss_limit st = None
  | _ => False
  end.

(** What such a step writes before it reads a line. *)
Definition asks (p : point) : list output :=
  match p with
  | CollectOrgAlias =>
      [Printed (nl ++ "Welcome to SF Record Search!");
       Prompt "Enter Salesforce org alias (e.g., MyOrg): "]
  | CollectObjectName _ => [Prompt "Enter the object name (or part of it) to search: "]
  | CollectFields _ _ =>
      [Prompt "Enter fields to query (comma-separated, or 'all-required'): "]
  | CollectKeyword _ _ _ => [Prompt "Enter keyword to search: "]
  | CollectLimit _ _ _ _ =>
      [Prompt "Enter the number of records to return (or 'All' for no limit): "]
  | _ => []
  end.

(** The world after a line was read at the prompt of [p]. *)
Definition answered (p : point) (rest : list input_event) (w : world) : world :=
  mkWorld rest (stdout w ++ asks p) (logfile w) (commands w).

(** How far a point is from the end of the loop body when no line is read:
    the top of the loop comes before authentication when the alias is known,
    and after it when the alias must be typed. *)
Definition rank (p : point) (st : session_state) : nat :=
  match p with
  | Terminal => 0
  | Execute _ _ _ _ _ => 1
  | CollectLimit _ _ _ _ => 2
  | CollectKeyword _ _ _ => 3
  | CollectFields _ _ => 4
  | CollectObjectName _ => 5
  | CollectOrgAlias => match ss_org_alias st with None => 6 | Some _ => 8 end
  | Authenticate _ => 7
  end.

(** A bound on the transitions [main] can still make: nine for each line
    of input left, and those that read nothing. *)
Definition steps_left (p : point) (st : session_state) (w : world) : nat :=
  9 * List.length (stdin w) + rank p st.

(** [no_space s]: no character of [s] is white space. *)
Fixpoint no_space (s : string) : bool :=
  match s with
  | EmptyString => true
  | String c r => negb (is_space c) && no_space r
  end.

(** The row built at line 100 for one record: the value of each requested
    field, or "N/A". *)
Definition record_row (fields : list string) (record : json) : list json :=
  map (fun field => match flag record field with
                    | Some v => v
                    | None => JStr "N/A"
                    end) fields.

(** What line 145 stores for the text typed at the fields prompt. *)
Definition stored_fields (fields : string) : option (list string) :=
  if String.eqb (lower fields) "all-required" then None
  else Some (split_on ","%char fields).

(** What line 165 stores for the text typed at the limit prompt, when
    [int] accepts it. *)
Definition stored_limit `{Env} (limit : string) : option (option Z) :=
  if mem (lower limit) ["all"; EmptyString] then Some None
  else option_map Some (py_int limit).

(** The configurations [main] passes through from the world [w0]. *)
Inductive reachable `{Env} (w0 : world) : point -> session_state -> world -> Prop :=
| reach_start : reachable w0 CollectOrgAlias empty_session w0
| reach_step p st w p' st' w' :
    reachable w0 p st w ->
    wizard_step p st w = (Ok (p', st'), w') ->
    reachable w0 p' st' w'.

(** The session state that belongs to a program point: the keys of the
    steps already passed, with the values typed there, and no other. *)
Definition session_at `{Env} (p : point) (st : session_state) : Prop :=
  match p with
  | CollectOrgAlias => st = empty_session
  | Authenticate a | CollectObjectName a => st = mkSession (Some a) None None None None
  | CollectFields a o => st = mkSession (Some a) (Some o) None None None
  | CollectKeyword a o f =>
      exists raw, f = FStr raw
        /\ st = mkSession (Some a) (Some o) (Some (stored_fields raw)) None None
  | CollectLimit a o f k =>
      exists raw, f = FStr raw
        /\ st = mkSession (Some a) (Some o) (Some (stored_fields raw)) (Some k) None
  | Execute a o f k l =>
      exists raw typed v, f = FStr raw /\ l = LStr typed
        /\ stored_limit typed = Some v
        /\ st = mkSession (Some a) (Some o) (Some (stored_fields raw)) (Some k) (Some v)
  | Terminal => True
  end.

(** The exceptions that the shape of an answer can provoke. *)
Definition shape_error (e : exn) : bool :=
  match e with
  | AttributeError | TypeError => true
  | _ => false
  end.

(** A describe answer that the code takes for unreadable: it is not JSON,
    or an object without "result", or with a "result" object without
    "fields", or with a "fields" array in which, after well-formed records,
    comes an object without a name or without a type. *)
Definition unreadable_describe `{Env} (text : string) : Prop :=
  json_loads text = None
  \/ exists top, json_loads text = Some (JObj top)
     /\ (dict_get top "result" = None
         \/ exists r, dict_get top "result" = Some (JObj r)
            /\ (dict_get r "fields" = None
                \/ exists before bad after,
                     dict_get r "fields" = Some (JArr (before ++ bad :: after))
                     /\ Forall field_record before
                     /\ is_object bad
                     /\ (flag bad "name" = None \/ flag bad "type" = None))).

(** [raises_only allowed r]: if [r] is an exception, it is one of [allowed]. *)
Definition raises_only {A} (allowed : list exn) (r : result A) : Prop :=
  match r with
  | Ok _ => True
  | Raise e => existsb (exn_eqb e) allowed = true
  end.

(** [comma_free s]: no character of [s] is a comma. *)
Fixpoint comma_free (s : string) : bool :=
  match s with
  | EmptyString => true
  | String c r => negb (Ascii.eqb c ","%char) && comma_free r
  end.

(** The commands a run of [main] has issued: auth lists, then possibly one
    search, and then nothing more. *)
Definition auth_then_search (p : point) (issued : list string) : Prop :=
  exists n,
    issued = repeat auth_command n
    \/ (p = Terminal
        /\ exists query org, issued = (repeat auth_command n ++ [search_command query org])%list).

(* ===================================================================== *)
(** * Properties *)
(* ===================================================================== *)

(** ** Text *)

Lemma append_assoc (a b c : string) : (a ++ b) ++ c = a ++ b ++ c.
Proof. induction a as [|x a IH]; simpl; [reflexivity | now rewrite IH]. Qed.

(** Joining a non-empty list and one more element. *)
Lemma join_snoc (sep : string) (l : list string) (x : string) :
  l <> [] -> join sep (l ++ [x]) = join sep l ++ sep ++ x.
Proof.
  unfold join.
  induction l as [|a l IH]; intros Hne; [congruence|].
  destruct l as [|b l].
  - reflexivity.
  - change (String.concat sep ((a :: b :: l) ++ [x]))
      with (a ++ sep ++ String.concat sep ((b :: l) ++ [x])).
    rewrite IH by discriminate.
    change (String.concat sep (a :: b :: l))
      with (a ++ sep ++ String.concat sep (b :: l)).
    now rewrite !append_assoc.
Qed.

(** ** The monad *)

(** [run_command] always returns text; it records the command line, adds
    at most log lines and touches neither the keyboard nor the terminal. *)
Lemma run_command_returns `{Env} (command : string) (w : world) :
  exists text more,
    run_command command w =
      (Ok text, mkWorld (stdin w) (stdout w) (logfile w ++ more) (commands w ++ [command])).
Proof.
  unfold run_command, run_command_timeout.
  destruct (subprocess_run (commands w) command 30) as [out| |err].
  - exists (strip out), []. now rewrite app_nil_r.
  - now eexists _, [_].
  - now eexists _, [_].
Qed.


Lemma run_command_completed `{Env} (command out : string) (w : world) :
  subprocess_run (commands w) command 30 = Completed out ->
  run_command command w =
    (Ok (strip out), mkWorld (stdin w) (stdout w) (logfile w) (commands w ++ [command])).
Proof. intros Hout. unfold run_command, run_command_timeout. now rewrite Hout. Qed.

(** ** [SF_record_search] *)

(** With a keyword, the function logs the query, runs the search command
    and then looks at the answer. *)
Lemma SF_record_search_runs `{Env} object_name target_org keyword limit fields w :
  keyword <> EmptyString ->
  let query := build_query object_name keyword limit fields in
  forall text w',
    run_command (search_command query target_org) (logged query w) = (Ok text, w') ->
    SF_record_search object_name target_org (Some keyword) limit fields w =
      if startswith "Error:" text then (Ok (RText text), w')
      else try_except_M (lift (search_table (fields_or_default fields) text))
             [JSONDecodeError; KeyError]
             (logging ERROR "Error parsing search results." ;;
              ret (RText "Error: Unable to parse search results.")) w'.
Proof.
  intros Hkw query text w' Hrun.
  destruct keyword as [|c k]; [congruence|].
  unfold SF_record_search, bind at 1. cbn [logging].
  fold query. unfold bind at 1.
  change (mkWorld (stdin w) (stdout w)
            (logfile w ++ [(INFO, "Executing query: " ++ query)]) (commands w))
    with (logged query w).
  rewrite Hrun.
  destruct (startswith "Error:" text); reflexivity.
Qed.

(** C8.  Without a keyword ([None] or the empty string) [SF_record_search]
    returns "Error: Search keyword is required." and leaves the world as it
    was: no query is logged and no command is run. *)
Theorem SF_record_search_requires_keyword `{Env} :
  forall object_name target_org keyword limit fields w,
    keyword = None \/ keyword = Some EmptyString ->
    SF_record_search object_name target_org keyword limit fields w
    = (Ok (RText "Error: Search keyword is required."), w).
Proof.
  intros object_name target_org keyword limit fields w [-> | ->]; reflexivity.
Qed.

Lemma SF_record_search_requires_keyword_witness :
  let w := Demo.world0 [] in
  @SF_record_search Demo.env "Account" "MyOrg" (Some EmptyString) (LInt 10) FNone w
  = (Ok (RText "Error: Search keyword is required."), w)
  /\ commands w = [] /\ logfile w = [].
Proof.
  split; [|split; reflexivity].
  apply (@SF_record_search_requires_keyword Demo.env). now right.
Defined.

(** C1.  For a non-empty keyword with N parts, the query consists of the
    N+1 clauses [FIND {part}], one per part in order, and [FIND {keyword}],
    joined by " OR " and followed by " RETURNING object(fields limit)"; when
    the keyword is white space only (N = 0) the single clause is preceded by
    " OR ".  The fields are the ones passed, joined by ", ": a non-empty
    list as it is, a non-empty text character by character, and [Id, Name]
    when nothing or something empty is passed (l.79).  This query is the one
    logged and put in the command line.  For "Acme Corp" the query is as the
    specification quotes it. *)
Theorem SF_record_search_query_clauses `{Env} :
  forall object_name target_org keyword limit fields w,
    keyword <> EmptyString ->
    let parts := split keyword in
    let clauses := map find_clause (parts ++ [keyword]) in
    let columns := match fields with
                   | FList (name :: names) => name :: names
                   | FStr (String c text) => chars (String c text)
                   | _ => ["Id"; "Name"]
                   end in
    let query := build_query object_name keyword limit fields in
    let w' := snd (SF_record_search object_name target_org (Some keyword) limit fields w) in
    query = match parts with [] => " OR " | _ => EmptyString end
               ++ join " OR " clauses
               ++ " RETURNING " ++ object_name ++ "("
               ++ join ", " columns ++ " " ++ limit_clause limit ++ ")"
    /\ (exists more,
          logfile w' = (logfile w ++ (INFO, ("Executing query: " ++ query)%string) :: more)%list)
    /\ commands w' = (commands w ++ [search_command query target_org])%list
    /\ build_query "Account" "Acme Corp" (LInt 10) (FList ["Id"; "Name"])
       = "FIND {Acme} OR FIND {Corp} OR FIND {Acme Corp} RETURNING Account(Id, Name LIMIT 10)".
Proof.
  intros object_name target_org keyword limit fields w Hkw parts clauses columns query w'.
  assert (Hcolumns : columns = fields_or_default fields)
    by (unfold columns; destruct fields as [|[|c text]|[|name names]]; reflexivity).
  clearbody columns. subst columns.
  split; [|split; [|split]].
  - subst query clauses parts. unfold build_query, keyword_conditions.
    destruct (split keyword) as [|p ps].
    + reflexivity.
    + rewrite map_app.
      change (map find_clause [keyword]) with [find_clause keyword].
      rewrite join_snoc by discriminate.
      change (EmptyString ++ ?x) with x.
      now rewrite !append_assoc.
  - destruct (run_command_returns (search_command query target_org) (logged query w))
      as (text & more & Hrun).
    unfold w'. rewrite (SF_record_search_runs _ _ _ _ _ _ Hkw _ _ Hrun).
    destruct (startswith "Error:" text).
    + exists more. simpl. now rewrite <- app_assoc.
    + unfold try_except_M, lift.
      destruct (search_table (fields_or_default fields) text) as [r|e].
      * exists more. simpl. now rewrite <- app_assoc.
      * destruct (existsb (exn_eqb e) [JSONDecodeError; KeyError]).
        -- eexists. simpl. rewrite <- !app_assoc. reflexivity.
        -- exists more. simpl. now rewrite <- app_assoc.
  - destruct (run_command_returns (search_command query target_org) (logged query w))
      as (text & more & Hrun).
    unfold w'. rewrite (SF_record_search_runs _ _ _ _ _ _ Hkw _ _ Hrun).
    destruct (startswith "Error:" text).
    + reflexivity.
    + unfold try_except_M, lift.
      destruct (search_table (fields_or_default fields) text) as [r|e].
      * reflexivity.
      * now destruct (existsb (exn_eqb e) [JSONDecodeError; KeyError]).
  - reflexivity.
Qed.

Lemma SF_record_search_query_clauses_witness :
  let w := snd (@SF_record_search Demo.env "Account" "MyOrg" (Some "Acme Corp")
                  (LInt 10) (FList ["Id"; "Name"]) (Demo.world0 [])) in
  let chosen := "FIND {Acme} OR FIND {Corp} OR FIND {Acme Corp} RETURNING Account(Name, Phone, Website LIMIT 10)" in
  let w2 := snd (@SF_record_search Demo.env "Account" "MyOrg" (Some "Acme Corp")
                   (LInt 10) (FList ["Name"; "Phone"; "Website"]) (Demo.world0 [])) in
  split "Acme Corp" = ["Acme"; "Corp"]
  /\ logfile w = [(INFO, "Executing query: " ++ Demo.acme_query)]
  /\ commands w = [search_command Demo.acme_query "MyOrg"]
  /\ build_query "Account" "Acme Corp" (LInt 10) (FList ["Name"; "Phone"; "Website"]) = chosen
  /\ commands w2 = [search_command chosen "MyOrg"]
  /\ build_query "Account" "Acme Corp" (LInt 10) FNone
     = "FIND {Acme} OR FIND {Corp} OR FIND {Acme Corp} RETURNING Account(Id, Name LIMIT 10)".
Proof.
  destruct (@SF_record_search_query_clauses Demo.env "Account" "MyOrg" "Acme Corp"
              (LInt 10) (FList ["Id"; "Name"]) (Demo.world0 []) ltac:(discriminate))
    as (_ & _ & Hcmd & _).
  destruct (@SF_record_search_query_clauses Demo.env "Account" "MyOrg" "Acme Corp"
              (LInt 10) (FList ["Name"; "Phone"; "Website"]) (Demo.world0 [])
              ltac:(discriminate))
    as (Hchosen & _ & Hcmd2 & _).
  destruct (@SF_record_search_query_clauses Demo.env "Account" "MyOrg" "Acme Corp"
              (LInt 10) FNone (Demo.world0 []) ltac:(discriminate))
    as (Hdefault & _).
  split; [reflexivity | split; [reflexivity | split; [exact Hcmd | ]]].
  split; [exact Hchosen | split; [exact Hcmd2 | exact Hdefault]].
Defined.

(** ** Occurrences of a word in a query *)

Lemma contains_cons (n : string) (c : ascii) (h : string) :
  contains n (String c h) = startswith n (String c h) || contains n h.
Proof. reflexivity. Qed.

Lemma contains_nil (n : string) :
  contains n EmptyString = startswith n EmptyString.
Proof. simpl. apply orb_false_r. Qed.

Lemma startswith_blocked (n u : string) (c : ascii) (b : string) :
  avoids c n = true -> startswith n (u ++ String c b) = startswith n u.
Proof.
  revert u. induction n as [|e n IH]; intros u Hav; [reflexivity|].
  simpl in Hav. apply andb_prop in Hav as [Hne Hav].
  destruct u as [|d u]; simpl.
  - apply negb_true_iff in Hne. now rewrite Hne.
  - now rewrite IH.
Qed.

(** A word cannot straddle a character it does not contain. *)
Lemma contains_split (n a : string) (c : ascii) (b : string) :
  avoids c n = true ->
  contains n (a ++ String c b) = contains n a || contains n b.
Proof.
  intros Hav. induction a as [|d a IH].
  - pose proof (startswith_blocked n EmptyString c b Hav) as Hb.
    change (EmptyString ++ String c b) with (String c b) in *.
    now rewrite contains_cons, contains_nil, Hb.
  - change (String d a ++ String c b) with (String d (a ++ String c b)).
    rewrite !contains_cons, IH.
    change (String d (a ++ String c b)) with (String d a ++ String c b).
    rewrite (startswith_blocked n (String d a) c b Hav).
    now rewrite orb_assoc.
Qed.

(** The same across a separator [c1 mid c2] whose middle is harmless. *)
Lemma contains_around (n a : string) (c1 : ascii) (mid : string) (c2 : ascii) (b : string) :
  avoids c1 n = true -> avoids c2 n = true -> contains n mid = false ->
  contains n (a ++ String c1 (mid ++ String c2 b)) = contains n a || contains n b.
Proof.
  intros H1 H2 Hmid.
  now rewrite (contains_split n a c1 _ H1), (contains_split n mid c2 b H2), Hmid.
Qed.

Lemma startswith_app (n h rest : string) :
  startswith n h = true -> startswith n (h ++ rest) = true.
Proof.
  revert h. induction n as [|e n IH]; intros h Hs; [reflexivity|].
  destruct h as [|d h]; [discriminate|]. simpl in *.
  apply andb_prop in Hs as [-> Hs]. now rewrite IH.
Qed.

Lemma contains_app_r (n h rest : string) :
  contains n h = true -> contains n (h ++ rest) = true.
Proof.
  induction h as [|d h IH]; intros Hc.
  - rewrite contains_nil in Hc. destruct n; [|discriminate].
    destruct rest; reflexivity.
  - change (String d h ++ rest) with (String d (h ++ rest)).
    rewrite contains_cons in *. apply orb_prop in Hc as [Hs | Hc].
    + change (String d (h ++ rest)) with (String d h ++ rest).
      now rewrite (startswith_app _ _ rest Hs).
    + rewrite (IH Hc). apply orb_true_r.
Qed.

Lemma contains_cons_r (n : string) (c : ascii) (h : string) :
  contains n h = true -> contains n (String c h) = true.
Proof. intros Hc. rewrite contains_cons, Hc. apply orb_true_r. Qed.

(** The first word of a text that starts with a character is a prefix. *)
Lemma split_first_prefix (s : string) :
  forall c r w ws,
    s = String c r -> is_space c = false -> split s = w :: ws ->
    exists rest, s = w ++ rest.
Proof.
  induction s as [|c0 r0 IH]; intros c r w ws Hs Hc Hsplit; [discriminate|].
  injection Hs as -> ->. simpl in Hsplit. rewrite Hc in Hsplit.
  destruct r as [|d r'].
  - injection Hsplit as <- <-. now exists EmptyString.
  - destruct (is_space d) eqn:Hd.
    + injection Hsplit as <- <-. now exists (String d r').
    + destruct (split (String d r')) as [|w' ws'] eqn:Hr.
      * injection Hsplit as <- <-. now exists (String d r').
      * injection Hsplit as <- <-.
        destruct (IH d r' w' ws' eq_refl Hd eq_refl) as [rest Hrest].
        exists rest. simpl. now rewrite <- Hrest.
Qed.

(** A word found in a part of the keyword is found in the keyword. *)
Lemma contains_split_part (n s : string) :
  forall p, In p (split s) -> contains n p = true -> contains n s = true.
Proof.
  induction s as [|c r IH]; intros p Hin Hp; [destruct Hin|].
  simpl in Hin. destruct (is_space c) eqn:Hc.
  - apply contains_cons_r. now apply (IH p).
  - destruct r as [|d r'].
    + destruct Hin as [<- | []]. exact Hp.
    + destruct (is_space d) eqn:Hd.
      * destruct Hin as [<- | Hin].
        -- exact (contains_app_r n (String c EmptyString) (String d r') Hp).
        -- apply contains_cons_r. now apply (IH p).
      * destruct (split (String d r')) as [|w' ws'] eqn:Hr.
        -- destruct Hin as [<- | []].
           exact (contains_app_r n (String c EmptyString) (String d r') Hp).
        -- destruct Hin as [<- | Hin].
           ++ destruct (split_first_prefix (String d r') d r' w' ws' eq_refl Hd Hr)
                as [rest Hrest].
              rewrite Hrest.
              exact (contains_app_r n (String c w') rest Hp).
           ++ apply contains_cons_r. apply (IH p); [now right | exact Hp].
Qed.

Lemma existsb_split_part (n s : string) :
  existsb (contains n) (split s) = true -> contains n s = true.
Proof.
  intros Hex. apply existsb_exists in Hex as (p & Hin & Hp).
  exact (contains_split_part n s p Hin Hp).
Qed.

Lemma contains_find_clause (p : string) :
  contains "LIMIT" (find_clause p) = contains "LIMIT" p.
Proof.
  change (find_clause p)
    with (EmptyString ++ String "F" ("IND " ++ String "{" (p ++ String "}" EmptyString))).
  rewrite contains_around by reflexivity.
  rewrite contains_split by reflexivity.
  change (contains "LIMIT" EmptyString) with false.
  now rewrite orb_false_r.
Qed.

Lemma contains_join_clauses (l : list string) :
  contains "LIMIT" (join " OR " (map find_clause l)) = existsb (contains "LIMIT") l.
Proof.
  induction l as [|x l IH]; [reflexivity|].
  destruct l as [|y l].
  - simpl existsb. rewrite orb_false_r. apply contains_find_clause.
  - change (join " OR " (map find_clause (x :: y :: l)))
      with (find_clause x
            ++ String " " ("OR" ++ String " " (join " OR " (map find_clause (y :: l))))).
    rewrite contains_around by reflexivity.
    now rewrite IH, contains_find_clause.
Qed.

Lemma contains_join_fields (l : list string) :
  contains "LIMIT" (join ", " l) = existsb (contains "LIMIT") l.
Proof.
  induction l as [|x l IH]; [reflexivity|].
  destruct l as [|y l].
  - simpl existsb. now rewrite orb_false_r.
  - change (join ", " (x :: y :: l))
      with (x ++ String "," (EmptyString ++ String " " (join ", " (y :: l)))).
    rewrite contains_around by reflexivity.
    now rewrite IH.
Qed.

(** Where "LIMIT" can come from in a query. *)
Lemma contains_LIMIT_query (object_name keyword : string) (limit : limit_arg)
    (fields : fields_arg) :
  contains "LIMIT" (build_query object_name keyword limit fields)
  = contains "LIMIT" keyword
    || contains "LIMIT" object_name
    || existsb (contains "LIMIT") (fields_or_default fields)
    || contains "LIMIT" (limit_clause limit).
Proof.
  unfold build_query, keyword_conditions.
  set (cs := join " OR " (map find_clause (split keyword))).
  set (fs := join ", " (fields_or_default fields)).
  change ((cs ++ " OR " ++ find_clause keyword) ++ " RETURNING " ++ object_name ++ "("
            ++ fs ++ " " ++ limit_clause limit ++ ")")
    with ((cs ++ String " " ("OR" ++ String " " (find_clause keyword)))
            ++ String " " ("RETURNING" ++ String " "
                 (object_name ++ String "("
                    (fs ++ String " " (limit_clause limit ++ String ")" EmptyString))))).
  rewrite contains_around by reflexivity.
  rewrite contains_around by reflexivity.
  rewrite !contains_split by reflexivity.
  change (contains "LIMIT" EmptyString) with false.
  rewrite orb_false_r.
  unfold cs, fs. rewrite contains_join_clauses, contains_join_fields, contains_find_clause.
  rewrite !orb_assoc.
  destruct (existsb (contains "LIMIT") (split keyword)) eqn:Hparts; [|reflexivity].
  now rewrite (existsb_split_part _ _ Hparts).
Qed.

(** C2, as the code has it.  With [None], "All" or "all" as the limit the
    clause is empty: the query ends with the fields, a space and the closing
    parenthesis, and it contains "LIMIT" exactly when the keyword, the
    object name or a field does.  With an integer [n] the query ends with
    " LIMIT n)". *)
Theorem limit_clause_of_query :
  forall object_name keyword limit fields,
    let query := build_query object_name keyword limit fields in
    let head := keyword_conditions keyword ++ " RETURNING " ++ object_name ++ "("
                  ++ join ", " (fields_or_default fields) in
    (limit = LNone \/ limit = LStr "All" \/ limit = LStr "all" ->
       query = head ++ " )"
       /\ contains "LIMIT" query
          = contains "LIMIT" keyword
            || contains "LIMIT" object_name
            || existsb (contains "LIMIT") (fields_or_default fields))
    /\ (forall n, limit = LInt n -> query = head ++ " LIMIT " ++ of_int n ++ ")").
Proof.
  intros object_name keyword limit fields query head.
  assert (Hshape : query = head ++ " " ++ limit_clause limit ++ ")").
  { unfold query, head, build_query. now rewrite !append_assoc. }
  split.
  - intros Hlimit.
    assert (Hclause : limit_clause limit = EmptyString)
      by (destruct Hlimit as [-> | [-> | ->]]; reflexivity).
    split.
    + now rewrite Hshape, Hclause.
    + unfold query. rewrite contains_LIMIT_query, Hclause.
      change (contains "LIMIT" EmptyString) with false.
      now rewrite orb_false_r.
  - intros n ->. rewrite Hshape. cbn [limit_clause append]. reflexivity.
Qed.

Lemma limit_clause_of_query_witness :
  build_query "Account" "Acme Corp" (LStr "All") FNone
    = "FIND {Acme} OR FIND {Corp} OR FIND {Acme Corp} RETURNING Account(Id, Name )"
  /\ contains "LIMIT" (build_query "Account" "Acme Corp" (LStr "All") FNone) = false
  /\ build_query "Account" "Acme Corp" (LInt 5) FNone
    = "FIND {Acme} OR FIND {Corp} OR FIND {Acme Corp} RETURNING Account(Id, Name LIMIT 5)".
Proof.
  destruct (limit_clause_of_query "Account" "Acme Corp" (LStr "All") FNone)
    as [Hall _].
  destruct (Hall (or_intror (or_introl eq_refl))) as [Hq Hc].
  destruct (limit_clause_of_query "Account" "Acme Corp" (LInt 5) FNone)
    as [_ Hint].
  split; [exact Hq | split; [exact Hc | exact (Hint 5%Z eq_refl)]].
Defined.

(** C2 as stated fails: with the limit [None] the clause is empty, and
    yet the query that [SF_record_search] builds and logs for the keyword
    "ACME LIMITED" contains "LIMIT". *)
Lemma unbounded_query_contains_LIMIT :
  let query := build_query "Account" "ACME LIMITED" LNone (FList ["Id"; "Name"]) in
  let w' := snd (@SF_record_search Demo.env "Account" "MyOrg" (Some "ACME LIMITED") LNone
                   (FList ["Id"; "Name"]) (Demo.world0 [])) in
  limit_clause LNone = EmptyString
  /\ query
     = "FIND {ACME} OR FIND {LIMITED} OR FIND {ACME LIMITED} RETURNING Account(Id, Name )"
  /\ hd_error (logfile w') = Some (INFO, "Executing query: " ++ query)
  /\ contains "LIMIT" query = true.
Proof. cbv zeta. repeat split. Qed.

(** ** [authenticate_org] *)





Lemma authenticate_org_runs `{Env} (org_alias : string) (w : world) text w' :
  run_command auth_command w = (Ok text, w') ->
  authenticate_org org_alias w =
    if startswith "Error:" text then (Ok false, w')
    else (try_except (authenticated text org_alias) [JSONDecodeError; KeyError] (Ok false), w').
Proof.
  intros Hrun. unfold authenticate_org, bind. rewrite Hrun.
  now destruct (startswith "Error:" text).
Qed.




(** Outside that shape the entries are visited in order and [.get] is
    called on each.  When the auth-list output decodes to
    [{"result": [1, {"alias": "MyOrg"}]}], the call on the number raises
    [AttributeError] before the second entry is looked at; line 34 catches
    [JSONDecodeError] and [KeyError] only. *)
Example authenticate_org_raises_on_odd_entry :
  let w := Demo.world0 [] in
  @subprocess_run Demo.odd (commands w) auth_command 30 = Completed Demo.odd_auth_text
  /\ @json_loads Demo.odd Demo.odd_auth_text
     = Some (JObj [("result", JArr [JInt 1; JObj [("alias", JStr "MyOrg")]])])
  /\ has_alias "MyOrg" (JObj [("alias", JStr "MyOrg")])
  /\ @authenticate_org Demo.odd "MyOrg" w
     = (Raise AttributeError, mkWorld [] [] [] [auth_command]).
Proof.
  cbv zeta. split; [reflexivity | split; [reflexivity | split; [|reflexivity]]].
  now exists [("alias", JStr "MyOrg")].
Qed.

(** ** [describe_object] *)

Lemma is_required_object (field : json) :
  is_object field -> is_required field = Ok (required field).
Proof.
  destruct field; try contradiction. intros _.
  unfold required, is_required, py_get. simpl.
  now destruct (negb _).
Qed.

Lemma describe_rows_records (fields : list json) :
  Forall field_record fields ->
  forall table required_fields,
    describe_rows fields table required_fields
    = Ok (mkTable (field_names table) (align table)
            (rows table ++ map describe_row fields),
          required_fields ++ map name_of (filter required fields))%list.
Proof.
  induction 1 as [|field fields Hrec _ IH]; intros table required_fields.
  - simpl. rewrite !app_nil_r. now destruct table.
  - destruct Hrec as (Hobj & Hname & Htype).
    cbn [describe_rows]. rewrite (is_required_object field Hobj). cbn [rbind].
    destruct field as [| | | | | |kv]; try contradiction.
    simpl in Hname, Htype.
    unfold py_getitem.
    destruct (dict_get kv "name") as [name|] eqn:En; [|congruence].
    destruct (dict_get kv "type") as [type|] eqn:Et; [|congruence].
    cbn [rbind].
    assert (Hrow : describe_row (JObj kv)
                   = [name; type;
                      JStr (if required (JObj kv) then check_mark else EmptyString)]).
    { unfold describe_row, name_of, type_of. simpl. now rewrite En, Et. }
    assert (Hn : name_of (JObj kv) = name).
    { unfold name_of. simpl. now rewrite En. }
    destruct (required (JObj kv)) eqn:Hreq; cbn [rbind]; rewrite IH;
      cbn [map filter add_row rows field_names align];
      rewrite Hreq, Hrow; cbn [map]; rewrite ?Hn, <- !app_assoc; reflexivity.
Qed.

Lemma py_map_names (fields : list json) :
  Forall field_record fields ->
  py_map (fun field => py_getitem field "name") fields = Ok (map name_of fields).
Proof.
  induction 1 as [|field fields Hrec _ IH]; [reflexivity|].
  destruct Hrec as (Hobj & Hname & _).
  destruct field as [| | | | | |kv]; try contradiction.
  cbn [py_map]. rewrite IH. unfold py_getitem, name_of. simpl in *.
  destruct (dict_get kv "name"); [reflexivity | congruence].
Qed.

(** The classification of a field record from its two flags. *)
Lemma required_of_flags (field : json) :
  is_object field ->
  (flag field "nillable" = Some (JBool false) ->
   flag field "createable" = Some (JBool true) -> required field = true)
  /\ (flag field "nillable" = Some (JBool true) \/ flag field "nillable" = None
      \/ flag field "createable" = Some (JBool false) \/ flag field "createable" = None ->
      required field = false)
  /\ (boolean_flag field "nillable" -> boolean_flag field "createable" ->
      (required field = true <->
         flag field "nillable" = Some (JBool false)
         /\ flag field "createable" = Some (JBool true))).
Proof.
  destruct field as [| | | | | |kv]; try contradiction. intros _.
  unfold boolean_flag, required, is_required, py_get. cbn [flag rbind].
  split; [|split].
  - now intros -> ->.
  - intros [-> | [-> | [Hc | Hc]]]; try reflexivity; rewrite Hc; now destruct (negb _).
  - intros [Hn | [bn Hn]] [Hc | [bc Hc]]; rewrite Hn, Hc; simpl.
    + split; [discriminate | now intros [[=] _]].
    + split; [discriminate | now intros [[=] _]].
    + destruct bn; simpl; (split; [discriminate | now intros [_ [=]]]).
    + destruct bn, bc; simpl; split; try discriminate; try tauto;
        try (now intros [[=] _]); try (now intros [_ [=]]).
Qed.

(** C7.  When the describe answer decodes to [{"result": {"fields":
    [...]}}] with field records, [describe_object] prints the table with one
    row per field in the order of the answer and returns the names of all
    fields and of the required ones, both in that order.  A field with
    "nillable" false and "createable" true is required; a field with
    "nillable" true or "createable" false, or missing either flag, is not,
    whatever the other flag; so a field whose flags are booleans or missing
    is required exactly when "nillable" is false and "createable" is true. *)
Theorem describe_object_required_fields `{Env} :
  forall org_alias object_name w text w' top result fields,
    run_command (describe_command org_alias object_name) w = (Ok text, w') ->
    startswith "Error:" text = false ->
    json_loads text = Some (JObj top) ->
    dict_get top "result" = Some (JObj result) ->
    dict_get result "fields" = Some (JArr fields) ->
    Forall field_record fields ->
    describe_object org_alias object_name w
    = (Ok (map name_of fields, map name_of (filter required fields)),
       mkWorld (stdin w')
         (stdout w' ++ [Printed (nl ++ "Available Fields:");
                        PrintedTable (mkTable ["Field Name"; "Type"; "Required"] "l"
                                        (map describe_row fields))])
         (logfile w') (commands w'))
    /\ (forall field,
          In field fields ->
          (flag field "nillable" = Some (JBool false) ->
           flag field "createable" = Some (JBool true) -> required field = true)
          /\ (flag field "nillable" = Some (JBool true) \/ flag field "nillable" = None
              \/ flag field "createable" = Some (JBool false)
              \/ flag field "createable" = None ->
              required field = false)
          /\ (boolean_flag field "nillable" -> boolean_flag field "createable" ->
              (required field = true <->
                 flag field "nillable" = Some (JBool false)
                 /\ flag field "createable" = Some (JBool true)))).
Proof.
  intros org_alias object_name w text w' top result fields
    Hrun Hprefix Htop Hresult Hfields Hrecs.
  split.
  - assert (Hf : (let? j := loads text in
                  let? r := py_getitem j "result" in py_getitem r "fields")
                 = Ok (JArr fields)).
    { unfold loads. rewrite Htop. cbn [rbind py_getitem]. rewrite Hresult.
      cbn [rbind py_getitem]. now rewrite Hfields. }
    unfold describe_object, try_except_M, bind, lift, print, print_table, emit, ret.
    rewrite Hrun, Hprefix, Hf. cbn [py_iter rbind].
    rewrite (describe_rows_records fields Hrecs), (py_map_names fields Hrecs).
    cbn. rewrite <- app_assoc. reflexivity.
  - intros field Hin. apply required_of_flags.
    rewrite Forall_forall in Hrecs. now destruct (Hrecs field Hin).
Qed.

Lemma describe_object_required_fields_witness :
  fst (@describe_object Demo.env "MyOrg" "Account" (Demo.world0 []))
  = Ok ([JStr "Id"; JStr "Name"; JStr "Phone"], [JStr "Name"])
  /\ map required Demo.account_fields = [false; true; false].
Proof.
  assert (Hrecs : Forall field_record Demo.account_fields).
  { unfold Demo.account_fields. repeat constructor; discriminate. }
  destruct (@describe_object_required_fields Demo.env "MyOrg" "Account" (Demo.world0 [])
              Demo.describe_text (mkWorld [] [] [] [describe_command "MyOrg" "Account"])
              [("result", JObj [("fields", JArr Demo.account_fields)])]
              [("fields", JArr Demo.account_fields)] Demo.account_fields
              eq_refl eq_refl eq_refl eq_refl eq_refl Hrecs) as [Hrun _].
  split; [now rewrite Hrun | reflexivity].
Defined.

(** ** The answers to a search *)

(** C9.  Let [text] be the answer to the search command, not an error
    text.  If it decodes to an object without records the function returns
    "No records found."; if it is not JSON the function logs the failure and
    returns "Error: Unable to parse search results.", raising nothing. *)
Theorem SF_record_search_no_records `{Env} :
  forall object_name target_org keyword limit fields w text w',
    keyword <> EmptyString ->
    let query := build_query object_name keyword limit fields in
    run_command (search_command query target_org) (logged query w) = (Ok text, w') ->
    startswith "Error:" text = false ->
    (forall top, json_loads text = Some (JObj top) -> no_records top ->
       SF_record_search object_name target_org (Some keyword) limit fields w
       = (Ok (RText "No records found."), w'))
    /\ (json_loads text = None ->
        SF_record_search object_name target_org (Some keyword) limit fields w
        = (Ok (RText "Error: Unable to parse search results."),
           mkWorld (stdin w') (stdout w')
             (logfile w' ++ [(ERROR, "Error parsing search results.")]) (commands w'))).
Proof.
  intros object_name target_org keyword limit fields w text w' Hkw query Hrun Hprefix.
  rewrite (SF_record_search_runs _ _ _ _ _ _ Hkw _ _ Hrun), Hprefix.
  unfold try_except_M, lift, search_table, loads.
  split.
  - intros top Htop Hnone. rewrite Htop. cbn [rbind py_get].
    destruct Hnone as [Hr | (r & Hr & [Hrec | Hrec])]; rewrite Hr; cbn [rbind py_get];
      [reflexivity | now rewrite Hrec | now rewrite Hrec].
  - intros Hnone. now rewrite Hnone.
Qed.

Lemma SF_record_search_no_records_witness :
  fst (@SF_record_search Demo.env "Account" "MyOrg" (Some "Acme Corp") (LInt 10)
         (FList ["Id"; "Name"]) (Demo.world0 []))
  = Ok (RText "No records found.").
Proof.
  destruct (@SF_record_search_no_records Demo.env "Account" "MyOrg" "Acme Corp" (LInt 10)
              (FList ["Id"; "Name"]) (Demo.world0 []) Demo.no_records_text
              (mkWorld [] [] [(INFO, "Executing query: " ++ Demo.acme_query)]
                 [search_command Demo.acme_query "MyOrg"])
              ltac:(discriminate) eq_refl eq_refl) as [Hnone _].
  rewrite (Hnone [("result", JObj [("records", JArr [])])] eq_refl).
  - reflexivity.
  - right. exists [("records", JArr [])]. split; [reflexivity | now right].
Defined.

(** ** Error texts *)

(** C10.  Each function tells failure from success by the first six
    characters of what [run_command] returned and by nothing else.  When
    that text starts with "Error:", [authenticate_org] returns false,
    [fetch_objects] the empty list, [describe_object] two empty lists (after
    printing its message) and [SF_record_search] the text itself; the
    decoder plays no part.  A command that exits normally after printing
    such a text is treated the same. *)
Theorem error_prefix_means_failure `{Env} :
  forall org_alias object_name target_org keyword limit fields w,
    (forall text w',
        run_command auth_command w = (Ok text, w') ->
        startswith "Error:" text = true ->
        authenticate_org org_alias w = (Ok false, w'))
    /\ (forall text w',
        run_command (list_command org_alias) w = (Ok text, w') ->
        startswith "Error:" text = true ->
        fetch_objects org_alias w = (Ok (JArr []), w'))
    /\ (forall text w',
        run_command (describe_command org_alias object_name) w = (Ok text, w') ->
        startswith "Error:" text = true ->
        describe_object org_alias object_name w
        = (Ok ([], []),
           mkWorld (stdin w')
             (stdout w' ++ [Printed "Error: Unable to describe the object."])
             (logfile w') (commands w')))
    /\ (forall text w',
        keyword <> EmptyString ->
        let query := build_query object_name keyword limit fields in
        run_command (search_command query target_org) (logged query w) = (Ok text, w') ->
        startswith "Error:" text = true ->
        SF_record_search object_name target_org (Some keyword) limit fields w
        = (Ok (RText text), w'))
    /\ (forall command out,
        subprocess_run (commands w) command 30 = Completed out ->
        run_command command w
        = (Ok (strip out),
           mkWorld (stdin w) (stdout w) (logfile w) (commands w ++ [command]))).
Proof.
  intros org_alias object_name target_org keyword limit fields w.
  split; [|split; [|split; [|split]]].
  - intros text w' Hrun Hprefix.
    now rewrite (authenticate_org_runs org_alias w text w' Hrun), Hprefix.
  - intros text w' Hrun Hprefix.
    unfold fetch_objects, bind. now rewrite Hrun, Hprefix.
  - intros text w' Hrun Hprefix.
    unfold describe_object, bind at 1. now rewrite Hrun, Hprefix.
  - intros text w' Hkw query Hrun Hprefix.
    now rewrite (SF_record_search_runs _ _ _ _ _ _ Hkw _ _ Hrun), Hprefix.
  - intros command out. apply run_command_completed.
Qed.

Lemma error_prefix_means_failure_witness :
  let text := "Error: nothing to see" in
  let w := Demo.world0 [] in
  @subprocess_run Demo.shouting (commands w) auth_command 30 = Completed text
  /\ fst (@authenticate_org Demo.shouting "MyOrg" w) = Ok false
  /\ fst (@fetch_objects Demo.shouting "MyOrg" w) = Ok (JArr [])
  /\ fst (@describe_object Demo.shouting "MyOrg" "Account" w) = Ok ([], [])
  /\ fst (@SF_record_search Demo.shouting "Account" "MyOrg" (Some "Acme Corp") (LInt 10)
            FNone w) = Ok (RText text).
Proof.
  destruct (@error_prefix_means_failure Demo.shouting "MyOrg" "Account" "MyOrg"
              "Acme Corp" (LInt 10) FNone (Demo.world0 []))
    as (Hauth & Hlist & Hdesc & Hsearch & _).
  split; [reflexivity|].
  split; [now rewrite (Hauth _ _ eq_refl eq_refl)|].
  split; [now rewrite (Hlist _ _ eq_refl eq_refl)|].
  split; [now rewrite (Hdesc _ _ eq_refl eq_refl)|].
  now rewrite (Hsearch _ _ ltac:(discriminate) eq_refl eq_refl).
Defined.

(** ** The wizard *)

Lemma main_loop_step `{Env} (fuel : nat) (p : point) (st : session_state) (w : world)
    (p' : point) (st' : session_state) (w' : world) :
  p <> Terminal ->
  wizard_step p st w = (Ok (p', st'), w') ->
  main_loop (S fuel) p st w = main_loop fuel p' st' w'.
Proof.
  intros Hp Hstep.
  destruct p; try congruence; cbn [main_loop]; unfold bind; now rewrite Hstep.
Qed.

Lemma main_loop_raises `{Env} (fuel : nat) (p : point) (st : session_state) (w : world)
    (e : exn) (w' : world) :
  p <> Terminal ->
  wizard_step p st w = (Raise e, w') ->
  main_loop (S fuel) p st w = (Raise e, w').
Proof.
  intros Hp Hstep.
  destruct p; try congruence; cbn [main_loop]; unfold bind; now rewrite Hstep.
Qed.

(** The top of the loop, entered with an empty session, asks for the org
    alias and runs no command. *)
Lemma restart_asks_org_alias `{Env} (w : world) :
  exists next w' more,
    wizard_step CollectOrgAlias empty_session w = (next, w')
    /\ stdout w' = (stdout w ++ asks CollectOrgAlias ++ more)%list
    /\ commands w' = commands w.
Proof.
  unfold wizard_step, try_except_M, wizard_body, bind, print, emit, input, ret.
  cbn [ss_org_alias empty_session stdin stdout logfile commands].
  destruct (stdin w) as [|[line|] rest].
  - eexists _, _, []. cbn. rewrite <- app_assoc. now repeat split.
  - destruct (start_over (strip line));
      eexists _, _, []; cbn; rewrite <- app_assoc; now repeat split.
  - eexists _, _, [_]. cbn. rewrite <- !app_assoc. now repeat split.
Qed.

(** C4.  At each of the five collection steps, when the line typed
    equals "start over" once stripped and lowered, the transition leads to
    the top of the loop with the empty session state: the five keys are gone,
    no command was run, nothing was logged, and the next transition asks for
    the org alias. *)
Theorem start_over_clears_session `{Env} :
  forall p st w line rest,
    awaits_input p st ->
    stdin w = Line line :: rest ->
    start_over (strip line) = true ->
    wizard_step p st w = (Ok (CollectOrgAlias, empty_session), answered p rest w)
    /\ (forall fuel,
          main_loop (S fuel) p st w
          = main_loop fuel CollectOrgAlias empty_session (answered p rest w))
    /\ (ss_org_alias empty_session = None /\ ss_object_name empty_session = None
        /\ ss_fields empty_session = None /\ ss_keyword empty_session = None
        /\ ss_limit empty_session = None)
    /\ awaits_input CollectOrgAlias empty_session
    /\ exists next w' more,
         wizard_step CollectOrgAlias empty_session (answered p rest w) = (next, w')
         /\ stdout w' = (stdout (answered p rest w) ++ asks CollectOrgAlias ++ more)%list
         /\ commands w' = commands w.
Proof.
  intros p st w line rest Hask Hin Hover.
  assert (Hstep : wizard_step p st w
                  = (Ok (CollectOrgAlias, empty_session), answered p rest w)).
  { unfold wizard_step, try_except_M, wizard_body, answered.
    destruct p; try contradiction; simpl in Hask; rewrite Hask;
      unfold bind, print, emit, input, ret;
      cbn [stdin stdout logfile commands]; rewrite Hin, Hover;
      cbn [asks]; rewrite <- ?app_assoc; reflexivity. }
  split; [exact Hstep|]. split; [|split; [|split]].
  - intros fuel. apply main_loop_step; [|exact Hstep].
    destruct p; try contradiction; discriminate.
  - now repeat split.
  - reflexivity.
  - destruct (restart_asks_org_alias (answered p rest w)) as (next & w' & more & Hnext).
    now exists next, w', more.
Qed.

Lemma start_over_clears_session_witness :
  let st := mkSession (Some "MyOrg") (Some "Account") None None None in
  let w := Demo.world0 [Line "  Start Over "; Line "MyOrg"] in
  @wizard_step Demo.env (CollectFields "MyOrg" "Account") st w
  = (Ok (CollectOrgAlias, empty_session),
     mkWorld [Line "MyOrg"]
       [Prompt "Enter fields to query (comma-separated, or 'all-required'): "] [] []).
Proof.
  apply (@start_over_clears_session Demo.env (CollectFields "MyOrg" "Account")
           (mkSession (Some "MyOrg") (Some "Account") None None None)
           (Demo.world0 [Line "  Start Over "; Line "MyOrg"])
           "  Start Over " [Line "MyOrg"] eq_refl eq_refl eq_refl).
Defined.

(** C5.  When [authenticate_org] returns false the transition prints the
    message, removes "org_alias" from the session state, leaves the other
    four keys as they were and leads to the top of the loop, which then asks
    for the org alias; when it returns true the transition leads to the
    object-name step with the session state unchanged. *)
Theorem authentication_failure_pops_org_alias `{Env} :
  forall org_alias st w ok w',
    authenticate_org org_alias w = (Ok ok, w') ->
    let st' := pop_org_alias st in
    (ok = false ->
       wizard_step (Authenticate org_alias) st w
       = (Ok (CollectOrgAlias, st'),
          mkWorld (stdin w')
            (stdout w' ++ [Printed "Error: Unable to authenticate. Try again."])
            (logfile w') (commands w'))
       /\ ss_org_alias st' = None
       /\ ss_object_name st' = ss_object_name st
       /\ ss_fields st' = ss_fields st
       /\ ss_keyword st' = ss_keyword st
       /\ ss_limit st' = ss_limit st
       /\ awaits_input CollectOrgAlias st')
    /\ (ok = true ->
        wizard_step (Authenticate org_alias) st w = (Ok (CollectObjectName org_alias, st), w')).
Proof.
  intros org_alias st w ok w' Hauth st'.
  split; intros ->.
  - split; [|now repeat split].
    unfold wizard_step, try_except_M, wizard_body, bind. now rewrite Hauth.
  - unfold wizard_step, try_except_M, wizard_body, bind. now rewrite Hauth.
Qed.

Lemma authentication_failure_pops_org_alias_witness :
  let st := mkSession (Some "Nope") (Some "Account") (Some None) (Some "Acme") (Some (Some 5%Z)) in
  fst (@wizard_step Demo.env (Authenticate "Nope") st (Demo.world0 []))
  = Ok (CollectOrgAlias,
        mkSession None (Some "Account") (Some None) (Some "Acme") (Some (Some 5%Z))).
Proof.
  destruct (@authentication_failure_pops_org_alias Demo.env "Nope"
              (mkSession (Some "Nope") (Some "Account") (Some None) (Some "Acme")
                 (Some (Some 5%Z)))
              (Demo.world0 []) false (mkWorld [] [] [] [auth_command]) eq_refl)
    as [Hfail _].
  destruct (Hfail eq_refl) as [Hstep _]. cbv zeta. now rewrite Hstep.
Defined.

(** C6.  At the limit step, an empty line or a line equal to "all" once
    lowered stores [None] under "limit"; any other line goes to [int]: the
    integer it returns is what is stored under "limit", the other four keys
    staying as they were, and when [int] raises [ValueError] the transition
    raises it too, since the handler catches [KeyboardInterrupt] only, and
    so does [main]. *)
Theorem limit_input_is_parsed `{Env} :
  forall org_alias object_name fields keyword st w line rest,
    ss_limit st = None ->
    stdin w = Line line :: rest ->
    let limit := strip line in
    let here := CollectLimit org_alias object_name fields keyword in
    let next := Execute org_alias object_name fields keyword (LStr limit) in
    let stored value :=
      mkSession (ss_org_alias st) (ss_object_name st) (ss_fields st) (ss_keyword st)
        (Some value) in
    start_over limit = false ->
    (limit = EmptyString \/ lower limit = "all" ->
       wizard_step here st w = (Ok (next, stored None), answered here rest w))
    /\ (limit <> EmptyString -> lower limit <> "all" ->
        forall n, py_int limit = Some n ->
          wizard_step here st w = (Ok (next, stored (Some n)), answered here rest w))
    /\ (limit <> EmptyString -> lower limit <> "all" ->
        py_int limit = None ->
          wizard_step here st w = (Raise ValueError, answered here rest w)
          /\ forall fuel, main_loop (S fuel) here st w = (Raise ValueError, answered here rest w)).
Proof.
  intros org_alias object_name fields keyword st w line rest Hnone Hin limit here next
    stored Hover.
  subst here next stored. set (here := CollectLimit org_alias object_name fields keyword).
  assert (Hlower : lower limit = EmptyString <-> limit = EmptyString).
  { destruct limit; simpl; split; congruence. }
  assert (Hmem : mem (lower limit) ["all"; EmptyString] = true
                 <-> limit = EmptyString \/ lower limit = "all").
  { unfold mem. cbn [existsb]. rewrite orb_false_r, orb_true_iff, !String.eqb_eq.
    rewrite Hlower. tauto. }
  assert (Hbody : wizard_step here st w
                  = if mem (lower limit) ["all"; EmptyString]
                    then (Ok (Execute org_alias object_name fields keyword (LStr limit),
                              set_limit st None), answered here rest w)
                    else match py_int limit with
                         | Some n =>
                             (Ok (Execute org_alias object_name fields keyword (LStr limit),
                                  set_limit st (Some n)), answered here rest w)
                         | None => (Raise ValueError, answered here rest w)
                         end).
  { unfold wizard_step, try_except_M, wizard_body, here, bind, input, answered, ret, lift.
    cbn [asks]. rewrite Hnone, Hin. fold limit. rewrite Hover.
    destruct (mem (lower limit) ["all"; EmptyString]); [reflexivity|].
    now destruct (py_int limit). }
  rewrite Hbody. split; [|split].
  - intros Hall. apply Hmem in Hall. now rewrite Hall.
  - intros Hne Hnall n Hint.
    destruct (mem (lower limit) ["all"; EmptyString]) eqn:Hm.
    { pose proof (proj1 Hmem eq_refl). tauto. }
    now rewrite Hint.
  - intros Hne Hnall Hint.
    assert (Hraise : (if mem (lower limit) ["all"; EmptyString]
                      then (Ok (Execute org_alias object_name fields keyword (LStr limit),
                                set_limit st None), answered here rest w)
                      else match py_int limit with
                           | Some n =>
                               (Ok (Execute org_alias object_name fields keyword (LStr limit),
                                    set_limit st (Some n)), answered here rest w)
                           | None => (Raise ValueError, answered here rest w)
                           end)
                     = (Raise ValueError, answered here rest w)).
    { destruct (mem (lower limit) ["all"; EmptyString]) eqn:Hm.
      { pose proof (proj1 Hmem eq_refl). tauto. }
      now rewrite Hint. }
    split; [exact Hraise|].
    intros fuel. apply main_loop_raises; [discriminate|].
    now rewrite Hbody.
Qed.

Lemma limit_input_is_parsed_witness :
  let st := mkSession (Some "MyOrg") (Some "Account") (Some None) (Some "Acme") None in
  let here := CollectLimit "MyOrg" "Account" FNone "Acme" in
  @main_loop Demo.env 1 here st (Demo.world0 [Line "ten"])
  = (Raise ValueError,
     mkWorld [] [Prompt "Enter the number of records to return (or 'All' for no limit): "]
       [] [])
  /\ fst (@wizard_step Demo.env here st (Demo.world0 [Line " ALL "]))
     = Ok (Execute "MyOrg" "Account" FNone "Acme" (LStr "ALL"),
           mkSession (Some "MyOrg") (Some "Account") (Some None) (Some "Acme") (Some None))
  /\ fst (@wizard_step Demo.env here st (Demo.world0 [Line " 25 "]))
     = Ok (Execute "MyOrg" "Account" FNone "Acme" (LStr "25"),
           mkSession (Some "MyOrg") (Some "Account") (Some None) (Some "Acme")
             (Some (Some 25%Z)))
  /\ fst (@wizard_step Demo.env here st (Demo.world0 [Line "-3"]))
     = Ok (Execute "MyOrg" "Account" FNone "Acme" (LStr "-3"),
           mkSession (Some "MyOrg") (Some "Account") (Some None) (Some "Acme")
             (Some (Some (-3)%Z))).
Proof.
  cbv zeta. split; [|split; [|split]].
  - destruct (@limit_input_is_parsed Demo.env "MyOrg" "Account" FNone "Acme"
                (mkSession (Some "MyOrg") (Some "Account") (Some None) (Some "Acme") None)
                (Demo.world0 [Line "ten"]) "ten" [] eq_refl eq_refl eq_refl)
      as (_ & _ & Hbad).
    destruct (Hbad ltac:(discriminate) ltac:(discriminate) eq_refl) as [_ Hmain].
    exact (Hmain 0%nat).
  - destruct (@limit_input_is_parsed Demo.env "MyOrg" "Account" FNone "Acme"
                (mkSession (Some "MyOrg") (Some "Account") (Some None) (Some "Acme") None)
                (Demo.world0 [Line " ALL "]) " ALL " [] eq_refl eq_refl eq_refl)
      as (Hall & _ & _).
    now rewrite (Hall (or_intror eq_refl)).
  - destruct (@limit_input_is_parsed Demo.env "MyOrg" "Account" FNone "Acme"
                (mkSession (Some "MyOrg") (Some "Account") (Some None) (Some "Acme") None)
                (Demo.world0 [Line " 25 "]) " 25 " [] eq_refl eq_refl eq_refl)
      as (_ & Hnumber & _).
    now rewrite (Hnumber ltac:(discriminate) ltac:(discriminate) 25%Z eq_refl).
  - destruct (@limit_input_is_parsed Demo.env "MyOrg" "Account" FNone "Acme"
                (mkSession (Some "MyOrg") (Some "Account") (Some None) (Some "Acme") None)
                (Demo.world0 [Line "-3"]) "-3" [] eq_refl eq_refl eq_refl)
      as (_ & Hnumber & _).
    now rewrite (Hnumber ltac:(discriminate) ltac:(discriminate) (-3)%Z eq_refl).
Defined.

(** ** Termination of [main] *)

Lemma authenticate_org_stdin `{Env} (org_alias : string) (w : world) :
  stdin (snd (authenticate_org org_alias w)) = stdin w.
Proof.
  destruct (run_command_returns auth_command w) as (text & more & Hrun).
  rewrite (authenticate_org_runs org_alias w _ _ Hrun).
  now destruct (startswith "Error:" text).
Qed.

Lemma SF_record_search_stdin `{Env} object_name target_org keyword limit fields w :
  stdin (snd (SF_record_search object_name target_org keyword limit fields w)) = stdin w.
Proof.
  destruct keyword as [[|c k]|]; try reflexivity.
  set (query := build_query object_name (String c k) limit fields).
  destruct (run_command_returns (search_command query target_org) (logged query w))
    as (text & more & Hrun).
  rewrite (SF_record_search_runs object_name target_org (String c k) limit fields w
             ltac:(discriminate) _ _ Hrun).
  destruct (startswith "Error:" text); [reflexivity|].
  unfold try_except_M, lift.
  destruct (search_table (fields_or_default fields) text) as [r|e]; [reflexivity|].
  now destruct (existsb (exn_eqb e) [JSONDecodeError; KeyError]).
Qed.

(** Closes a case of a transition: the equation gives the next point,
    session state and world. *)
Ltac settle :=
  cbn [stdin stdout logfile commands existsb exn_eqb orb fst snd negb];
  try discriminate;
  let Heq := fresh "Heq" in
  intros Heq; injection Heq as <- <- <-;
  cbn [rank stdin List.length ss_org_alias empty_session pop_org_alias];
  try lia.

(** Splits on the next input event at a prompt. *)
Ltac read_line w :=
  let line := fresh "line" in
  let rest := fresh "rest" in
  destruct (stdin w) as [|[line|] rest];
  cbn [stdin stdout logfile commands existsb exn_eqb orb fst snd negb];
  [ settle
  | destruct (start_over (strip line)); [settle|]
  | settle ].

(** Every transition that does not raise lowers [steps_left]. *)
Lemma wizard_step_decreases `{Env} (p : point) (st : session_state) (w : world)
    (p' : point) (st' : session_state) (w' : world) :
  p <> Terminal ->
  wizard_step p st w = (Ok (p', st'), w') ->
  (steps_left p' st' w' < steps_left p st w)%nat.
Proof.
  intros Hp. unfold wizard_step, try_except_M, steps_left.
  destruct p as [|a|a|a o|a o f|a o f k|a o f k l|]; try congruence; clear Hp;
    unfold wizard_body.
  - (* the top of the loop *)
    unfold bind, print, emit, input, ret. cbn [stdin stdout logfile commands].
    destruct (ss_org_alias st) as [alias|] eqn:Halias.
    + settle. rewrite Halias. lia.
    + read_line w. settle.
  - (* authentication *)
    unfold bind. pose proof (authenticate_org_stdin a w) as Hstdin.
    destruct (authenticate_org a w) as [[ok|e] w1]; cbn [snd] in Hstdin.
    + destruct ok; unfold print, emit, ret; settle; rewrite Hstdin; lia.
    + destruct e; unfold bind, print, emit, ret; settle; rewrite Hstdin; lia.
  - (* the object name *)
    unfold bind, input, print, emit, ret. cbn [stdin stdout logfile commands].
    destruct (ss_object_name st) as [v|]; [settle|].
    read_line w. settle.
  - (* the fields *)
    unfold bind, input, print, emit, ret. cbn [stdin stdout logfile commands].
    destruct (ss_fields st) as [[v|]|]; [settle | settle |].
    read_line w. settle.
  - (* the keyword *)
    unfold bind, input, print, emit, ret. cbn [stdin stdout logfile commands].
    destruct (ss_keyword st) as [v|]; [settle|].
    read_line w. settle.
  - (* the limit *)
    unfold bind, input, print, emit, ret, lift. cbn [stdin stdout logfile commands].
    destruct (ss_limit st) as [[v|]|]; [settle | settle |].
    read_line w.
    destruct (mem (lower (strip line)) ["all"; EmptyString]); [settle|].
    destruct (py_int (strip line)); settle.
  - (* the search *)
    unfold bind at 1, print, emit. unfold bind at 1.
    pose proof (SF_record_search_stdin o a (Some k) l f
                  (mkWorld (stdin w) (stdout w ++ [Printed (nl ++ "Searching..." ++ nl)])
                     (logfile w) (commands w))) as Hstdin.
    destruct (SF_record_search o a (Some k) l f _) as [[r|e] w1]; cbn [snd stdin] in Hstdin.
    + unfold bind, print_result, print, print_table, emit, ret.
      destruct r; settle; rewrite Hstdin; lia.
    + destruct e; unfold bind, print, emit, ret; settle; rewrite Hstdin; lia.
Qed.

(** [main] ends: with the fuel that [steps_left] counts, the loop reaches
    the end of the program or raises; it never stops for lack of fuel. *)
Theorem main_loop_terminates `{Env} :
  forall fuel p st w,
    (steps_left p st w <= fuel)%nat ->
    fst (main_loop fuel p st w) <> Ok None.
Proof.
  induction fuel as [|fuel IH]; intros p st w Hfuel.
  - destruct p; try (unfold steps_left in Hfuel; cbn [rank] in Hfuel;
                     try destruct (ss_org_alias st); lia).
    discriminate.
  - destruct p as [|a|a|a o|a o f|a o f k|a o f k l|] eqn:Hp; try discriminate;
      rewrite <- Hp in *;
      (assert (Hnt : p <> Terminal) by (rewrite Hp; discriminate));
      (destruct (wizard_step p st w) as [[[p' st']|e] w'] eqn:Hstep;
       [ rewrite (main_loop_step fuel p st w p' st' w' Hnt Hstep);
         apply IH;
         pose proof (wizard_step_decreases p st w p' st' w' Hnt Hstep); lia
       | rewrite (main_loop_raises fuel p st w e w' Hnt Hstep); discriminate ]).
Qed.

Lemma main_loop_terminates_witness :
  let w := Demo.world0 [Line "MyOrg"; Line "Account"; Line "Id,Name";
                        Line "Acme Corp"; Line "10"] in
  steps_left CollectOrgAlias empty_session w = 51%nat
  /\ fst (@main Demo.env 51 w) <> Ok None.
Proof.
  split; [reflexivity|].
  apply (@main_loop_terminates Demo.env 51 CollectOrgAlias empty_session).
  vm_compute. lia.
Defined.

(** ** What [main] hands to the search *)

(** The text typed at the fields prompt, not the list stored in the session
    state, is what travels to [SF_record_search], where it is iterated
    character by character; likewise the text typed at the limit prompt. *)
Theorem main_passes_typed_text `{Env} :
  forall org_alias object_name keyword st w line rest,
    ss_fields st = None ->
    stdin w = Line line :: rest ->
    start_over (strip line) = false ->
    let here := CollectFields org_alias object_name in
    let stored := if String.eqb (lower (strip line)) "all-required" then None
                  else Some (split_on ","%char (strip line)) in
    wizard_step here st w
    = (Ok (CollectKeyword org_alias object_name (FStr (strip line)), set_fields st stored),
       answered here rest w)
    /\ forall limit,
         build_query object_name keyword limit (FStr (strip line))
         = build_query object_name keyword limit
             (FList (match strip line with
                     | EmptyString => ["Id"; "Name"]
                     | s => chars s
                     end)).
Proof.
  intros org_alias object_name keyword st w line rest Hnone Hin Hover here stored.
  split.
  - unfold wizard_step, try_except_M, wizard_body, here, bind, input, answered, ret.
    cbn [asks]. now rewrite Hnone, Hin, Hover.
  - intros limit. unfold build_query.
    destruct (strip line) as [|c s]; reflexivity.
Qed.

Lemma main_passes_typed_text_witness :
  let st := mkSession (Some "MyOrg") (Some "Account") None None None in
  fst (@wizard_step Demo.env (CollectFields "MyOrg" "Account") st
         (Demo.world0 [Line "Id,Name"]))
  = Ok (CollectKeyword "MyOrg" "Account" (FStr "Id,Name"),
        mkSession (Some "MyOrg") (Some "Account") (Some (Some ["Id"; "Name"])) None None)
  /\ build_query "Account" "Acme" LNone (FStr "Id,Name")
     = "FIND {Acme} OR FIND {Acme} RETURNING Account(I, d, ,, N, a, m, e )".
Proof.
  cbv zeta.
  destruct (@main_passes_typed_text Demo.env "MyOrg" "Account" "Acme"
              (mkSession (Some "MyOrg") (Some "Account") None None None)
              (Demo.world0 [Line "Id,Name"]) "Id,Name" [] eq_refl eq_refl eq_refl)
    as [Hstep Hquery].
  split; [now rewrite Hstep | now rewrite Hquery].
Defined.

(** ** [run_command] *)

(** [run_command] on each of the three ways the child process ends that
    lines 16-23 provide for.  After a normal exit it returns the stripped
    output and logs nothing; after a timeout it returns
    "Error: Command timed out." and logs the command; after a non-zero exit
    it returns "Error: " followed by the stripped error output, which it
    also logs.  Both error texts start with "Error:", and each comes with
    exactly one log line, at error level.  In the three cases the command
    line is recorded and the keyboard and the terminal are left alone. *)
Theorem run_command_reports `{Env} :
  forall command w,
    (forall out,
        subprocess_run (commands w) command 30 = Completed out ->
        run_command command w
        = (Ok (strip out),
           mkWorld (stdin w) (stdout w) (logfile w) (commands w ++ [command])))
    /\ (subprocess_run (commands w) command 30 = TimeoutExpired ->
        run_command command w
        = (Ok "Error: Command timed out.",
           mkWorld (stdin w) (stdout w)
             (logfile w ++ [(ERROR, "Command timed out: " ++ command)])
             (commands w ++ [command])))
    /\ (forall err,
          subprocess_run (commands w) command 30 = CalledProcessError err ->
          run_command command w
          = (Ok ("Error: " ++ strip err),
             mkWorld (stdin w) (stdout w)
               (logfile w ++ [(ERROR, "Command failed: " ++ strip err)])
               (commands w ++ [command]))
          /\ startswith "Error:" ("Error: " ++ strip err) = true).
Proof.
  intros command w. unfold run_command, run_command_timeout.
  split; [|split].
  - now intros out ->.
  - now intros ->.
  - intros err ->. split; reflexivity.
Qed.

(** ** [fetch_objects] *)

(** For an answer that is not an error text, [fetch_objects] returns the
    empty list when the answer is not JSON, and the "result" entry of a
    decoded object as it is, whatever its type, or the empty list when the
    entry is missing; it prints and logs nothing.  An answer that decodes
    to something else than an object raises [AttributeError]. *)
Theorem fetch_objects_result `{Env} :
  forall org_alias w text w',
    run_command (list_command org_alias) w = (Ok text, w') ->
    startswith "Error:" text = false ->
    (json_loads text = None -> fetch_objects org_alias w = (Ok (JArr []), w'))
    /\ (forall top, json_loads text = Some (JObj top) ->
          fetch_objects org_alias w
          = (Ok (match dict_get top "result" with Some v => v | None => JArr [] end), w'))
    /\ (forall j, json_loads text = Some j -> ~ is_object j ->
          fetch_objects org_alias w = (Raise AttributeError, w')).
Proof.
  intros org_alias w text w' Hrun Hprefix.
  unfold fetch_objects, bind, lift, loads. rewrite Hrun, Hprefix.
  split; [|split].
  - now intros ->.
  - now intros top ->.
  - intros j -> Hj. destruct j; try reflexivity. now elim Hj.
Qed.

Lemma fetch_objects_result_witness :
  let w := Demo.world0 [] in
  fst (@fetch_objects Demo.listing "MyOrg" w) = Ok (JArr [JStr "Account"; JStr "Contact"]).
Proof.
  cbv zeta.
  destruct (@fetch_objects_result Demo.listing "MyOrg" (Demo.world0 []) Demo.list_text
              (mkWorld [] [] [] [list_command "MyOrg"]) eq_refl eq_refl) as (_ & Hobj & _).
  now rewrite (Hobj _ eq_refl).
Defined.

(** ** [describe_object]: answers it cannot read *)

Lemma describe_rows_step (field : json) (table : pretty_table) (required_fields : list json) :
  field_record field ->
  exists table' required_fields',
    forall rest,
      describe_rows (field :: rest) table required_fields
      = describe_rows rest table' required_fields'.
Proof.
  intros (Hobj & Hname & Htype).
  destruct field as [| | | | | |kv]; try contradiction. simpl in Hname, Htype.
  destruct (dict_get kv "name") as [name|] eqn:En; [|congruence].
  destruct (dict_get kv "type") as [type|] eqn:Et; [|congruence].
  destruct (required (JObj kv)) eqn:Hreq.
  - eexists _, _. intros rest. cbn [describe_rows].
    rewrite (is_required_object (JObj kv) I), Hreq. unfold py_getitem.
    rewrite En, Et. cbn [rbind]. reflexivity.
  - eexists _, _. intros rest. cbn [describe_rows].
    rewrite (is_required_object (JObj kv) I), Hreq. unfold py_getitem.
    rewrite En, Et. cbn [rbind]. reflexivity.
Qed.

(** A record without a name or a type stops the loop with [KeyError]. *)
Lemma describe_rows_incomplete (before : list json) (bad : json) (after : list json) :
  Forall field_record before ->
  is_object bad ->
  flag bad "name" = None \/ flag bad "type" = None ->
  forall table required_fields,
    describe_rows (before ++ bad :: after) table required_fields = Raise KeyError.
Proof.
  intros Hbefore Hobj Hmissing.
  induction Hbefore as [|field before Hrec _ IH]; intros table required_fields.
  - destruct bad as [| | | | | |kv]; try contradiction. simpl in Hmissing.
    cbn [app describe_rows]. rewrite (is_required_object (JObj kv) I). cbn [rbind].
    unfold py_getitem.
    destruct (dict_get kv "name") as [name|]; cbn [rbind]; [|reflexivity].
    destruct Hmissing as [Hn | Ht]; [discriminate|]. now rewrite Ht.
  - destruct (describe_rows_step field table required_fields Hrec) as (t' & r' & Hstep).
    cbn [app]. rewrite Hstep. apply IH.
Qed.

(** When the describe answer is unreadable in one of these ways,
    [describe_object] returns two empty lists and logs one line; it prints
    nothing, not even the rows it had built before the faulty record. *)
Theorem describe_object_unreadable `{Env} :
  forall org_alias object_name w text w',
    run_command (describe_command org_alias object_name) w = (Ok text, w') ->
    startswith "Error:" text = false ->
    unreadable_describe text ->
    describe_object org_alias object_name w
    = (Ok ([], []),
       mkWorld (stdin w') (stdout w')
         (logfile w' ++ [(ERROR, "Error parsing describe results.")]) (commands w')).
Proof.
  intros org_alias object_name w text w' Hrun Hprefix Hbad.
  unfold describe_object, try_except_M, bind, lift, print, print_table, emit, ret, logging.
  rewrite Hrun, Hprefix. unfold loads.
  destruct Hbad as [-> | (top & -> & Htop)]; [reflexivity|].
  cbn [rbind py_getitem].
  destruct Htop as [-> | (r & -> & Hr)]; [reflexivity|].
  cbn [rbind py_getitem].
  destruct Hr as [-> | (before & bad & after & -> & Hbefore & Hobj & Hmissing)];
    [reflexivity|].
  cbn [rbind py_iter].
  now rewrite (describe_rows_incomplete before bad after Hbefore Hobj Hmissing).
Qed.

Lemma describe_object_unreadable_witness :
  let w := Demo.world0 [] in
  @describe_object Demo.nameless "MyOrg" "Account" w
  = (Ok ([], []),
     mkWorld [] [] [(ERROR, "Error parsing describe results.")]
       [describe_command "MyOrg" "Account"]).
Proof.
  cbv zeta.
  apply (@describe_object_unreadable Demo.nameless "MyOrg" "Account" (Demo.world0 [])
           Demo.nameless_text (mkWorld [] [] [] [describe_command "MyOrg" "Account"])
           eq_refl eq_refl).
  right. eexists. split; [reflexivity|]. right. eexists. split; [reflexivity|]. right.
  exists [Demo.field "Id" "id" false false], (JObj [("type", JStr "string")]), [].
  split; [reflexivity|]. split; [|split; [exact I | now left]].
  repeat constructor; discriminate.
Defined.

(** ** [describe_object]: the two lists *)

Lemma is_required_ok_object (field : json) (b : bool) :
  is_required field = Ok b -> is_object field.
Proof. destruct field; simpl; try discriminate. intros _. exact I. Qed.

(** The loop ends normally only on field records. *)
Lemma describe_rows_ok_records (fields : list json) :
  forall table required_fields built,
    describe_rows fields table required_fields = Ok built ->
    Forall field_record fields.
Proof.
  induction fields as [|field fields IH]; intros table required_fields built Hok;
    [constructor|].
  cbn [describe_rows] in Hok.
  destruct (is_required field) as [req|e] eqn:Hreq; [|discriminate].
  pose proof (is_required_ok_object field req Hreq) as Hobj.
  destruct field as [| | | | | |kv]; try contradiction.
  cbn [rbind] in Hok. unfold py_getitem in Hok.
  destruct (dict_get kv "name") as [name|] eqn:En; [|discriminate].
  destruct (dict_get kv "type") as [type|] eqn:Et; [|discriminate].
  cbn [rbind] in Hok.
  constructor.
  - split; [exact I|]. simpl. rewrite En, Et. split; discriminate.
  - destruct req; cbn [rbind] in Hok; exact (IH _ _ _ Hok).
Qed.

(** What the code reads as the list of fields, when it gets that far. *)
Lemma describe_fields_listed `{Env} (text : string) (listed : json) :
  (let? j := loads text in
   let? r := py_getitem j "result" in py_getitem r "fields") = Ok listed ->
  exists top result,
    json_loads text = Some (JObj top)
    /\ dict_get top "result" = Some (JObj result)
    /\ dict_get result "fields" = Some listed.
Proof.
  unfold loads. destruct (json_loads text) as [j|]; [|discriminate].
  cbn [rbind]. destruct j as [| | | | | |top]; try discriminate.
  cbn [py_getitem]. destruct (dict_get top "result") as [r|] eqn:Hresult; [|discriminate].
  cbn [rbind]. destruct r as [| | | | | |result]; try discriminate.
  cbn [py_getitem]. destruct (dict_get result "fields") as [v|] eqn:Hfields; [|discriminate].
  intros [= ->]. now exists top, result.
Qed.

(** Whenever [describe_object] returns, it is in one of two ways.  Either
    the answer decoded to an object whose "result" is an object whose
    "fields" holds field records only: then the first list returned is the
    names of these very records, in their order, and the second is the
    names of those among them that are required, in the same order.  Or a
    failure was reported, on the terminal for an error text and in the log
    otherwise, and both lists are empty. *)
Theorem describe_object_lists_agree `{Env} :
  forall org_alias object_name w text w1 names required_names w',
    run_command (describe_command org_alias object_name) w = (Ok text, w1) ->
    describe_object org_alias object_name w = (Ok (names, required_names), w') ->
    (exists top result listed fields,
        startswith "Error:" text = false
        /\ json_loads text = Some (JObj top)
        /\ dict_get top "result" = Some (JObj result)
        /\ dict_get result "fields" = Some listed
        /\ py_iter listed = Ok fields
        /\ Forall field_record fields
        /\ names = map name_of fields
        /\ required_names = map name_of (filter required fields))
    \/ (names = [] /\ required_names = []
        /\ (startswith "Error:" text = true
            /\ stdout w' = (stdout w1 ++ [Printed "Error: Unable to describe the object."])%list
            \/ startswith "Error:" text = false
               /\ logfile w' = (logfile w1 ++ [(ERROR, "Error parsing describe results.")])%list)).
Proof.
  intros org_alias object_name w text w1 names required_names w' Hrun Hdesc.
  unfold describe_object, bind at 1 in Hdesc. rewrite Hrun in Hdesc.
  destruct (startswith "Error:" text) eqn:Hprefix.
  { unfold bind, print, emit, ret in Hdesc. injection Hdesc as <- <- <-.
    right. repeat split. now left. }
  unfold try_except_M, bind at 1, lift at 1 in Hdesc.
  destruct (let? j := loads text in
            let? r := py_getitem j "result" in py_getitem r "fields")
    as [listed|e] eqn:Hlisted.
  2:{ destruct (existsb (exn_eqb e) [JSONDecodeError; KeyError]); [|discriminate].
      unfold bind, logging, ret in Hdesc. injection Hdesc as <- <- <-.
      right. repeat split. now right. }
  unfold bind at 1, lift at 1 in Hdesc.
  destruct (py_iter listed) as [fields|e] eqn:Hiter; cbn [rbind] in Hdesc.
  2:{ destruct (existsb (exn_eqb e) [JSONDecodeError; KeyError]); [|discriminate].
      unfold bind, logging, ret in Hdesc. injection Hdesc as <- <- <-.
      right. repeat split. now right. }
  destruct (describe_rows fields describe_table []) as [built|e] eqn:Hrows.
  2:{ destruct (existsb (exn_eqb e) [JSONDecodeError; KeyError]); [|discriminate].
      unfold bind, logging, ret in Hdesc. injection Hdesc as <- <- <-.
      right. repeat split. now right. }
  pose proof (describe_rows_ok_records fields _ _ _ Hrows) as Hrecs.
  rewrite (describe_rows_records fields Hrecs) in Hrows. injection Hrows as <-.
  unfold bind, print, print_table, emit, lift, ret in Hdesc. cbn [rbind] in Hdesc.
  rewrite (py_map_names fields Hrecs) in Hdesc. cbn in Hdesc.
  injection Hdesc as <- <- _.
  destruct (describe_fields_listed text listed Hlisted) as (top & result & Htop & Hres & Hf).
  left. exists top, result, listed, fields. repeat split; assumption.
Qed.

Lemma describe_object_lists_agree_witness :
  exists top result listed fields,
    @json_loads Demo.env Demo.describe_text = Some (JObj top)
    /\ dict_get top "result" = Some (JObj result)
    /\ dict_get result "fields" = Some listed
    /\ py_iter listed = Ok fields
    /\ [JStr "Id"; JStr "Name"; JStr "Phone"] = map name_of fields
    /\ [JStr "Name"] = map name_of (filter required fields).
Proof.
  destruct (@describe_object_lists_agree Demo.env "MyOrg" "Account" (Demo.world0 [])
              Demo.describe_text (mkWorld [] [] [] [describe_command "MyOrg" "Account"])
              [JStr "Id"; JStr "Name"; JStr "Phone"] [JStr "Name"]
              (snd (@describe_object Demo.env "MyOrg" "Account" (Demo.world0 [])))
              eq_refl eq_refl)
    as [(top & result & listed & fields & _ & Htop & Hres & Hf & Hiter & _ & Hn & Hr)
       | (Hnames & _)]; [|discriminate].
  now exists top, result, listed, fields.
Defined.

(** ** [SF_record_search]: the table *)

Lemma fold_add_row (l : list (list json)) (t : pretty_table) :
  fold_left add_row l t = mkTable (field_names t) (align t) (rows t ++ l).
Proof.
  revert t. induction l as [|row l IH]; intros t; cbn [fold_left].
  - rewrite app_nil_r. now destruct t.
  - rewrite IH. unfold add_row. cbn. now rewrite <- app_assoc.
Qed.

Lemma py_map_total {A B} (f : A -> result B) (g : A -> B) (l : list A) :
  Forall (fun x => f x = Ok (g x)) l -> py_map f l = Ok (map g l).
Proof.
  induction 1 as [|x l Hx _ IH]; [reflexivity|].
  cbn [py_map map]. now rewrite Hx, IH.
Qed.

Lemma record_row_object (fields : list string) (record : json) :
  is_object record ->
  py_map (fun field => py_get record field (JStr "N/A")) fields
  = Ok (record_row fields record).
Proof.
  destruct record; try contradiction. intros _.
  apply py_map_total. apply Forall_forall. intros field _. reflexivity.
Qed.

(** When the answer to the search holds a non-empty "records" array of
    objects and the requested columns are distinct, [SF_record_search]
    returns a table with these columns, aligned left, and one row per record
    in the order of the answer; a cell holds the record's value for the
    column, or "N/A" when the record has none. *)
Theorem SF_record_search_table `{Env} :
  forall object_name target_org keyword limit fields w text w' top r record records,
    keyword <> EmptyString ->
    let query := build_query object_name keyword limit fields in
    let columns := fields_or_default fields in
    run_command (search_command query target_org) (logged query w) = (Ok text, w') ->
    startswith "Error:" text = false ->
    json_loads text = Some (JObj top) ->
    dict_get top "result" = Some (JObj r) ->
    dict_get r "records" = Some (JArr (record :: records)) ->
    Forall is_object (record :: records) ->
    nodupb columns = true ->
    SF_record_search object_name target_org (Some keyword) limit fields w
    = (Ok (RTable (mkTable columns "l" (map (record_row columns) (record :: records)))), w').
Proof.
  intros object_name target_org keyword limit fields w text w' top r record records
    Hkw query columns Hrun Hprefix Htop Hr Hrecords Hobjects Hdistinct.
  rewrite (SF_record_search_runs _ _ _ _ _ _ Hkw _ _ Hrun), Hprefix.
  unfold try_except_M, lift, search_table, loads. fold columns.
  rewrite Htop. cbn [rbind py_get]. rewrite Hr. cbn [rbind py_get]. rewrite Hrecords.
  cbn [truthy rbind py_iter]. unfold new_table. rewrite Hdistinct. cbn [rbind].
  rewrite (py_map_total _ (record_row columns)).
  - cbn [rbind]. now rewrite fold_add_row.
  - apply Forall_forall. intros x Hx. apply record_row_object.
    rewrite Forall_forall in Hobjects. now apply Hobjects.
Qed.

Lemma SF_record_search_table_witness :
  fst (@SF_record_search Demo.found "Account" "MyOrg" (Some "Acme Corp") (LInt 10)
         (FList ["Id"; "Name"]) (Demo.world0 []))
  = Ok (RTable (mkTable ["Id"; "Name"] "l"
                  [[JStr "001"; JStr "Acme"]; [JStr "002"; JStr "N/A"]])).
Proof.
  rewrite (@SF_record_search_table Demo.found "Account" "MyOrg" "Acme Corp" (LInt 10)
             (FList ["Id"; "Name"]) (Demo.world0 []) Demo.found_text
             (mkWorld [] [] [(INFO, "Executing query: " ++ Demo.acme_query)]
                [search_command Demo.acme_query "MyOrg"])
             [("result", JObj [("records", JArr Demo.found_records)])]
             [("records", JArr Demo.found_records)]
             (JObj [("Id", JStr "001"); ("Name", JStr "Acme")])
             [JObj [("Id", JStr "002")]]
             ltac:(discriminate) eq_refl eq_refl eq_refl eq_refl eq_refl
             ltac:(repeat constructor) eq_refl).
  reflexivity.
Defined.

(** ** The exceptions that escape *)

Lemma raises_only_bind {A B} (allowed : list exn) (c : result A) (k : A -> result B) :
  raises_only allowed c -> (forall a, raises_only allowed (k a)) ->
  raises_only allowed (rbind c k).
Proof. destruct c as [a|e]; intros Hc Hk; [apply Hk | exact Hc]. Qed.

Lemma raises_only_weaken {A} (allowed allowed' : list exn) (r : result A) :
  (forall e, existsb (exn_eqb e) allowed = true -> existsb (exn_eqb e) allowed' = true) ->
  raises_only allowed r -> raises_only allowed' r.
Proof. destruct r as [a|e]; intros Hsub Hr; [exact I | now apply Hsub]. Qed.

Lemma raises_only_try {A} (allowed : list exn) (c h : result A) (caught : list exn) :
  (match c with
   | Raise e => existsb (exn_eqb e) caught = true \/ existsb (exn_eqb e) allowed = true
   | Ok _ => True
   end) ->
  raises_only allowed h ->
  raises_only allowed (try_except c caught h).
Proof.
  destruct c as [a|e]; intros Hc Hh; [exact I|]. unfold try_except.
  destruct (existsb (exn_eqb e) caught); [exact Hh|].
  destruct Hc as [Hc | Hc]; [discriminate | exact Hc].
Qed.

Lemma py_get_raises (j : json) (k : string) (d : json) :
  raises_only [AttributeError] (py_get j k d).
Proof. now destruct j. Qed.

Lemma py_getitem_raises (j : json) (k : string) :
  raises_only [KeyError; TypeError] (py_getitem j k).
Proof. destruct j; try reflexivity. simpl. now destruct (dict_get kv k). Qed.

Lemma py_iter_raises (j : json) : raises_only [TypeError] (py_iter j).
Proof. now destruct j. Qed.

Lemma loads_raises `{Env} (text : string) : raises_only [JSONDecodeError] (loads text).
Proof. unfold loads. now destruct (json_loads text). Qed.

Lemma py_any_raises {A} (allowed : list exn) (f : A -> result bool) (l : list A) :
  (forall x, raises_only allowed (f x)) -> raises_only allowed (py_any f l).
Proof.
  intros Hf. induction l as [|x l IH]; [exact I|].
  cbn [py_any]. apply raises_only_bind; [apply Hf|]. now intros [|].
Qed.

Lemma py_map_raises {A B} (allowed : list exn) (f : A -> result B) (l : list A) :
  (forall x, raises_only allowed (f x)) -> raises_only allowed (py_map f l).
Proof.
  intros Hf. induction l as [|x l IH]; [exact I|].
  cbn [py_map]. apply raises_only_bind; [apply Hf|]. intros y.
  apply raises_only_bind; [exact IH | now intros ys].
Qed.

(** Membership in a list of exceptions, decided by computation. *)
Ltac among := let e := fresh "e" in intros e; destruct e; simpl; congruence.

Lemma authenticated_raises `{Env} (response org_alias : string) :
  raises_only [JSONDecodeError; AttributeError; TypeError] (authenticated response org_alias).
Proof.
  unfold authenticated.
  apply raises_only_bind;
    [apply (raises_only_weaken [JSONDecodeError]); [among | apply loads_raises]|].
  intros j. apply raises_only_bind;
    [apply (raises_only_weaken [AttributeError]); [among | apply py_get_raises]|].
  intros orgs. apply raises_only_bind;
    [apply (raises_only_weaken [TypeError]); [among | apply py_iter_raises]|].
  intros l. apply py_any_raises. intros org. unfold alias_is.
  apply raises_only_bind;
    [apply (raises_only_weaken [AttributeError]); [among | apply py_get_raises]|].
  now intros a.
Qed.

Lemma is_required_raises (field : json) : raises_only [AttributeError] (is_required field).
Proof. destruct field; try reflexivity. unfold is_required, py_get. simpl. now destruct (negb _). Qed.

Lemma describe_rows_raises (fields : list json) :
  forall table required_fields,
    raises_only [KeyError; AttributeError; TypeError]
      (describe_rows fields table required_fields).
Proof.
  induction fields as [|field fields IH]; intros table required_fields; [exact I|].
  cbn [describe_rows].
  apply raises_only_bind;
    [apply (raises_only_weaken [AttributeError]); [among | apply is_required_raises]|].
  intros req. apply raises_only_bind;
    [apply (raises_only_weaken [KeyError; TypeError]); [among | apply py_getitem_raises]|].
  intros name. apply raises_only_bind;
    [apply (raises_only_weaken [KeyError; TypeError]); [among | apply py_getitem_raises]|].
  intros type. apply raises_only_bind; [|intros r; apply IH].
  destruct req; [|exact I].
  apply raises_only_bind;
    [apply (raises_only_weaken [KeyError; TypeError]); [among | apply py_getitem_raises]|].
  now intros n.
Qed.

Lemma search_table_raises `{Env} (fields : list string) (text : string) :
  raises_only [JSONDecodeError; AttributeError; TypeError; PrettyTableError]
    (search_table fields text).
Proof.
  unfold search_table.
  apply raises_only_bind;
    [apply (raises_only_weaken [JSONDecodeError]); [among | apply loads_raises]|].
  intros j. apply raises_only_bind;
    [apply (raises_only_weaken [AttributeError]); [among | apply py_get_raises]|].
  intros r. apply raises_only_bind;
    [apply (raises_only_weaken [AttributeError]); [among | apply py_get_raises]|].
  intros results. destruct (truthy results); [|exact I].
  apply raises_only_bind.
  { unfold new_table. now destruct (nodupb fields). }
  intros table. apply raises_only_bind;
    [apply (raises_only_weaken [TypeError]); [among | apply py_iter_raises]|].
  intros records. apply raises_only_bind; [|now intros rws].
  apply py_map_raises. intros record. apply py_map_raises. intros field.
  apply (raises_only_weaken [AttributeError]); [among | apply py_get_raises].
Qed.

Lemma SF_record_search_raises `{Env} object_name target_org keyword limit fields w :
  raises_only [AttributeError; TypeError; PrettyTableError]
    (fst (SF_record_search object_name target_org keyword limit fields w)).
Proof.
  destruct keyword as [[|c k]|]; try exact I.
  set (query := build_query object_name (String c k) limit fields).
  destruct (run_command_returns (search_command query target_org) (logged query w))
    as (text & more & Hrun).
  rewrite (SF_record_search_runs object_name target_org (String c k) limit fields w
             ltac:(discriminate) _ _ Hrun).
  destruct (startswith "Error:" text); [exact I|].
  unfold try_except_M, lift.
  pose proof (search_table_raises (fields_or_default fields) text) as Hraises.
  destruct (search_table (fields_or_default fields) text) as [r|e]; [exact I|].
  destruct e; try exact I; simpl in Hraises; try discriminate; reflexivity.
Qed.

Lemma authenticate_org_raises `{Env} (org_alias : string) (w : world) :
  raises_only [AttributeError; TypeError] (fst (authenticate_org org_alias w)).
Proof.
  destruct (run_command_returns auth_command w) as (text & more & Hrun).
  rewrite (authenticate_org_runs org_alias w _ _ Hrun).
  destruct (startswith "Error:" text); [exact I|]. cbn [fst].
  apply raises_only_try; [|exact I].
  pose proof (authenticated_raises text org_alias) as Hraises.
  destruct (authenticated text org_alias) as [b|e]; [exact I|].
  destruct e; simpl in *; auto; discriminate.
Qed.

(** Of the exceptions of the model, those that leave the four functions
    are the ones provoked by the shape of an answer. *)
Lemma only_shape_errors_escape `{Env} :
  forall org_alias object_name target_org keyword limit fields w,
    raises_only [AttributeError; TypeError] (fst (authenticate_org org_alias w))
    /\ raises_only [AttributeError] (fst (fetch_objects org_alias w))
    /\ raises_only [AttributeError; TypeError]
         (fst (describe_object org_alias object_name w))
    /\ raises_only [AttributeError; TypeError; PrettyTableError]
         (fst (SF_record_search object_name target_org keyword limit fields w)).
Proof.
  intros org_alias object_name target_org keyword limit fields w.
  split; [apply authenticate_org_raises|]. split; [|split; [|apply SF_record_search_raises]].
  - destruct (run_command_returns (list_command org_alias) w) as (text & more & Hrun).
    unfold fetch_objects, bind, lift, ret. rewrite Hrun.
    destruct (startswith "Error:" text); [exact I|]. cbn [fst].
    apply raises_only_try; [|exact I]. unfold loads.
    destruct (json_loads text) as [j|]; [|now left].
    cbn [rbind]. destruct j; simpl; auto.
  - destruct (run_command_returns (describe_command org_alias object_name) w)
      as (text & more & Hrun).
    unfold describe_object, bind at 1. rewrite Hrun.
    destruct (startswith "Error:" text); [exact I|].
    unfold try_except_M, bind at 1, lift at 1.
    assert (Hpath : raises_only [JSONDecodeError; KeyError; TypeError]
                      (let? j := loads text in
                       let? r := py_getitem j "result" in py_getitem r "fields")).
    { apply raises_only_bind;
        [apply (raises_only_weaken [JSONDecodeError]); [among | apply loads_raises]|].
      intros j. apply raises_only_bind;
        [apply (raises_only_weaken [KeyError; TypeError]); [among | apply py_getitem_raises]|].
      intros r.
      apply (raises_only_weaken [KeyError; TypeError]); [among | apply py_getitem_raises]. }
    destruct (let? j := loads text in
              let? r := py_getitem j "result" in py_getitem r "fields") as [fs|e].
    2:{ destruct e; simpl in Hpath; try discriminate; first [exact I | reflexivity]. }
    unfold bind at 1, lift at 1.
    pose proof (py_iter_raises fs) as Hiter.
    destruct (py_iter fs) as [l|e]; cbn [rbind].
    2:{ destruct e; simpl in Hiter; try discriminate; first [exact I | reflexivity]. }
    pose proof (describe_rows_raises l describe_table []) as Hrows.
    destruct (describe_rows l describe_table []) as [built|e] eqn:Hbuilt.
    2:{ destruct e; simpl in Hrows; try discriminate; first [exact I | reflexivity]. }
    pose proof (describe_rows_ok_records l _ _ _ Hbuilt) as Hrecs.
    unfold bind, print, print_table, emit, lift, ret. cbn [rbind].
    now rewrite (py_map_names l Hrecs).
Qed.

Lemma raises_only_not {A} (allowed : list exn) (r : result A) (e : exn) :
  raises_only allowed r -> existsb (exn_eqb e) allowed = false -> r <> Raise e.
Proof. intros Hr He ->. simpl in Hr. congruence. Qed.

(** A [JSONDecodeError] raised by the decoder and a [KeyError] raised by
    a subscript never leave [authenticate_org], [fetch_objects],
    [describe_object] or [SF_record_search]: both arise inside the [try]
    blocks only, whose [except] clauses (lines 34, 45, 71 and 104) catch
    them, and no handler raises one. *)
Theorem caught_errors_never_escape `{Env} :
  forall org_alias object_name target_org keyword limit fields w,
    (fst (authenticate_org org_alias w) <> Raise JSONDecodeError
     /\ fst (authenticate_org org_alias w) <> Raise KeyError)
    /\ (fst (fetch_objects org_alias w) <> Raise JSONDecodeError
        /\ fst (fetch_objects org_alias w) <> Raise KeyError)
    /\ (fst (describe_object org_alias object_name w) <> Raise JSONDecodeError
        /\ fst (describe_object org_alias object_name w) <> Raise KeyError)
    /\ (fst (SF_record_search object_name target_org keyword limit fields w)
          <> Raise JSONDecodeError
        /\ fst (SF_record_search object_name target_org keyword limit fields w)
          <> Raise KeyError).
Proof.
  intros org_alias object_name target_org keyword limit fields w.
  destruct (only_shape_errors_escape org_alias object_name target_org keyword limit fields w)
    as (Hauth & Hfetch & Hdescribe & Hsearch).
  repeat split; eapply raises_only_not; try eassumption; reflexivity.
Qed.

(** ** The parts of a keyword *)

Lemma split_words (s : string) :
  Forall (fun part => part <> EmptyString /\ no_space part = true) (split s).
Proof.
  induction s as [|c r IH]; [constructor|].
  cbn [split]. destruct (is_space c) eqn:Hc; [exact IH|].
  destruct r as [|d r'].
  - constructor; [|constructor]. split; [discriminate|]. simpl. now rewrite Hc.
  - destruct (is_space d) eqn:Hd.
    + constructor; [|exact IH]. split; [discriminate|]. simpl. now rewrite Hc.
    + destruct (split (String d r')) as [|w ws].
      * constructor; [|constructor]. split; [discriminate|]. simpl. now rewrite Hc.
      * inversion IH as [|? ? [_ Hw] Hws]; subst.
        constructor; [|exact Hws]. split; [discriminate|]. simpl. now rewrite Hc, Hw.
Qed.

Lemma split_one_word (s : string) :
  s <> EmptyString -> no_space s = true -> split s = [s].
Proof.
  induction s as [|c r IH]; intros Hne Hns; [congruence|].
  simpl in Hns. apply andb_prop in Hns as [Hc Hr]. apply negb_true_iff in Hc.
  cbn [split]. rewrite Hc. destruct r as [|d r']; [reflexivity|].
  assert (Hd : is_space d = false).
  { simpl in Hr. apply andb_prop in Hr as [Hd _]. now apply negb_true_iff in Hd. }
  rewrite Hd, (IH ltac:(discriminate) Hr). reflexivity.
Qed.

(** The terms of the per-part clauses are words: none is empty and none
    contains white space.  A keyword that is itself one word is its own and
    only part, so that the query repeats its clause:
    [FIND {word} OR FIND {word}]. *)
Theorem keyword_parts_are_words :
  forall keyword,
    Forall (fun part => part <> EmptyString /\ no_space part = true) (split keyword)
    /\ (keyword <> EmptyString -> no_space keyword = true ->
        split keyword = [keyword]
        /\ keyword_conditions keyword
           = find_clause keyword ++ " OR " ++ find_clause keyword).
Proof.
  intros keyword. split; [apply split_words|].
  intros Hne Hns. split; [now apply split_one_word|].
  unfold keyword_conditions. now rewrite (split_one_word keyword Hne Hns).
Qed.

Lemma keyword_parts_are_words_witness :
  keyword_conditions "Acme" = "FIND {Acme} OR FIND {Acme}".
Proof.
  destruct (keyword_parts_are_words "Acme") as [_ Hone].
  destruct (Hone ltac:(discriminate) eq_refl) as [_ Hq]. exact Hq.
Defined.

(** ** The fields typed at the prompt *)

Lemma split_on_nonempty (sep : ascii) (s : string) : split_on sep s <> [].
Proof.
  destruct s as [|c r]; cbn [split_on]; [discriminate|].
  destruct (Ascii.eqb c sep); [discriminate|].
  destruct (split_on sep r); discriminate.
Qed.

Lemma join_cons (sep x : string) (l : list string) :
  l <> [] -> join sep (x :: l) = x ++ sep ++ join sep l.
Proof. destruct l; [congruence | reflexivity]. Qed.

Lemma join_cons_head (sep : string) (c : ascii) (w : string) (ws : list string) :
  join sep (String c w :: ws) = String c (join sep (w :: ws)).
Proof. destruct ws; reflexivity. Qed.

(** Splitting at a character and joining with it gives the text back. *)
Lemma join_split_on (sep : ascii) (s : string) :
  join (String sep EmptyString) (split_on sep s) = s.
Proof.
  induction s as [|c r IH]; [reflexivity|].
  cbn [split_on]. destruct (Ascii.eqb c sep) eqn:Hc.
  - apply Ascii.eqb_eq in Hc as ->.
    rewrite join_cons by apply split_on_nonempty. now rewrite IH.
  - pose proof (split_on_nonempty sep r) as Hne.
    destruct (split_on sep r) as [|w ws]; [congruence|].
    now rewrite join_cons_head, IH.
Qed.

Lemma split_on_free (s : string) : Forall (fun p => comma_free p = true) (split_on "," s).
Proof.
  induction s as [|c r IH]; [repeat constructor|].
  cbn [split_on]. destruct (Ascii.eqb c ",") eqn:Hc.
  - constructor; [reflexivity | exact IH].
  - destruct (split_on "," r) as [|w ws].
    + constructor; [|constructor]. simpl. now rewrite Hc.
    + inversion IH as [|? ? Hw Hws]; subst.
      constructor; [|exact Hws]. simpl. now rewrite Hc, Hw.
Qed.

(** The fields step of the wizard, for a line that is not "start over".
    It goes on to the keyword step with the typed text, and under "fields"
    it stores [None] when the text is "all-required" in any case; otherwise
    a list that is never empty, whose entries contain no comma and keep
    their white space, and which joined with commas is the text typed.
    Empty text is stored as the list with one empty name.  The other four
    keys stay as they were. *)
Theorem stored_fields_round_trip `{Env} :
  forall org_alias object_name st w line rest,
    ss_fields st = None ->
    stdin w = Line line :: rest ->
    start_over (strip line) = false ->
    let fields := strip line in
    let here := CollectFields org_alias object_name in
    exists stored,
      wizard_step here st w
      = (Ok (CollectKeyword org_alias object_name (FStr fields),
             mkSession (ss_org_alias st) (ss_object_name st) (Some stored)
               (ss_keyword st) (ss_limit st)),
         answered here rest w)
      /\ stored = stored_fields fields
      /\ (lower fields = "all-required" -> stored = None)
      /\ (lower fields <> "all-required" ->
          exists names,
            stored = Some names
            /\ names <> []
            /\ Forall (fun name => comma_free name = true) names
            /\ join "," names = fields)
      /\ (fields = EmptyString -> stored = Some [EmptyString]).
Proof.
  intros org_alias object_name st w line rest Hnone Hin Hover fields here.
  exists (stored_fields fields). split; [|split; [reflexivity|]].
  - unfold wizard_step, try_except_M, wizard_body, here, bind, input, answered, ret.
    cbn [asks]. subst fields. now rewrite Hnone, Hin, Hover.
  - unfold stored_fields. split; [|split].
    + now intros ->.
    + intros Hne. apply String.eqb_neq in Hne. rewrite Hne.
      exists (split_on "," fields).
      split; [reflexivity|]. split; [apply split_on_nonempty|].
      split; [apply split_on_free | apply (join_split_on "," fields)].
    + now intros ->.
Qed.

Lemma stored_fields_round_trip_witness :
  let st := mkSession (Some "MyOrg") (Some "Account") None None None in
  let here := CollectFields "MyOrg" "Account" in
  fst (@wizard_step Demo.env here st (Demo.world0 [Line " Id, Name "]))
  = Ok (CollectKeyword "MyOrg" "Account" (FStr "Id, Name"),
        mkSession (Some "MyOrg") (Some "Account") (Some (Some ["Id"; " Name"])) None None)
  /\ fst (@wizard_step Demo.env here st (Demo.world0 [Line "All-Required"]))
     = Ok (CollectKeyword "MyOrg" "Account" (FStr "All-Required"),
           mkSession (Some "MyOrg") (Some "Account") (Some None) None None)
  /\ fst (@wizard_step Demo.env here st (Demo.world0 [Line "   "]))
     = Ok (CollectKeyword "MyOrg" "Account" (FStr EmptyString),
           mkSession (Some "MyOrg") (Some "Account") (Some (Some [EmptyString])) None None).
Proof.
  cbv zeta. split; [|split].
  - destruct (@stored_fields_round_trip Demo.env "MyOrg" "Account"
                (mkSession (Some "MyOrg") (Some "Account") None None None)
                (Demo.world0 [Line " Id, Name "]) " Id, Name " [] eq_refl eq_refl eq_refl)
      as (stored & Hstep & -> & _).
    now rewrite Hstep.
  - destruct (@stored_fields_round_trip Demo.env "MyOrg" "Account"
                (mkSession (Some "MyOrg") (Some "Account") None None None)
                (Demo.world0 [Line "All-Required"]) "All-Required" [] eq_refl eq_refl eq_refl)
      as (stored & Hstep & _ & Hall & _).
    rewrite Hstep, (Hall eq_refl). reflexivity.
  - destruct (@stored_fields_round_trip Demo.env "MyOrg" "Account"
                (mkSession (Some "MyOrg") (Some "Account") None None None)
                (Demo.world0 [Line "   "]) "   " [] eq_refl eq_refl eq_refl)
      as (stored & Hstep & _ & _ & _ & Hempty).
    rewrite Hstep, (Hempty eq_refl). reflexivity.
Defined.

(** ** The wizard at a prompt *)

(** An interrupt while a prompt waits ends the program in good order: the
    farewell is printed after the prompt, nothing is run or logged, the
    session state stays as it was and [main] returns. *)
Theorem interrupt_says_goodbye `{Env} :
  forall p st w rest,
    awaits_input p st ->
    stdin w = CtrlC :: rest ->
    let w' := mkWorld rest (stdout w ++ asks p ++ [Printed (nl ++ "Exiting. Goodbye!")])
                (logfile w) (commands w) in
    wizard_step p st w = (Ok (Terminal, st), w')
    /\ forall fuel, main_loop (S fuel) p st w = (Ok (Some st), w').
Proof.
  intros p st w rest Hask Hin w'.
  assert (Hstep : wizard_step p st w = (Ok (Terminal, st), w')).
  { unfold wizard_step, try_except_M, wizard_body, w'.
    destruct p; try contradiction; simpl in Hask; rewrite Hask;
      unfold bind, print, emit, input, ret;
      cbn [stdin stdout logfile commands]; rewrite Hin;
      cbn [existsb exn_eqb orb asks stdin stdout logfile commands app];
      rewrite <- ?app_assoc; reflexivity. }
  split; [exact Hstep|]. intros fuel.
  rewrite (main_loop_step fuel p st w Terminal st w'); [|
    destruct p; try contradiction; discriminate | exact Hstep].
  now destruct fuel.
Qed.

Lemma interrupt_says_goodbye_witness :
  @main Demo.env 3 (Demo.world0 [CtrlC; Line "MyOrg"])
  = (Ok (Some empty_session),
     mkWorld [Line "MyOrg"]
       [Printed (nl ++ "Welcome to SF Record Search!");
        Prompt "Enter Salesforce org alias (e.g., MyOrg): ";
        Printed (nl ++ "Exiting. Goodbye!")] [] []).
Proof.
  destruct (@interrupt_says_goodbye Demo.env CollectOrgAlias empty_session
              (Demo.world0 [CtrlC; Line "MyOrg"]) [Line "MyOrg"] eq_refl eq_refl)
    as [_ Hmain].
  exact (Hmain 2%nat).
Defined.

(** When the input ends while a prompt waits, [input] raises [EOFError];
    the handler does not catch it and [main] ends with it, after the prompt
    and without a farewell. *)
Theorem end_of_input_ends_main `{Env} :
  forall p st w,
    awaits_input p st ->
    stdin w = [] ->
    wizard_step p st w = (Raise EOFError, answered p [] w)
    /\ forall fuel, main_loop (S fuel) p st w = (Raise EOFError, answered p [] w).
Proof.
  intros p st w Hask Hin.
  assert (Hstep : wizard_step p st w = (Raise EOFError, answered p [] w)).
  { unfold wizard_step, try_except_M, wizard_body, answered.
    destruct p; try contradiction; simpl in Hask; rewrite Hask;
      unfold bind, print, emit, input, ret;
      cbn [stdin stdout logfile commands]; rewrite Hin;
      cbn [existsb exn_eqb orb asks stdin stdout logfile commands app];
      rewrite <- ?app_assoc; reflexivity. }
  split; [exact Hstep|]. intros fuel.
  apply main_loop_raises; [|exact Hstep].
  destruct p; try contradiction; discriminate.
Qed.

Lemma end_of_input_ends_main_witness :
  fst (@main Demo.env 5 (Demo.world0 [Line "MyOrg"])) = Raise EOFError.
Proof.
  destruct (@end_of_input_ends_main Demo.env (CollectObjectName "MyOrg")
              (mkSession (Some "MyOrg") None None None None)
              (mkWorld [] [Printed (nl ++ "Welcome to SF Record Search!");
                           Prompt "Enter Salesforce org alias (e.g., MyOrg): "]
                 [] [auth_command]) eq_refl eq_refl) as [_ Hmain].
  change (fst (@main_loop Demo.env 3 (CollectObjectName "MyOrg")
                 (mkSession (Some "MyOrg") None None None None)
                 (mkWorld [] [Printed (nl ++ "Welcome to SF Record Search!");
                              Prompt "Enter Salesforce org alias (e.g., MyOrg): "]
                    [] [auth_command])) = Raise EOFError).
  now rewrite (Hmain 2%nat).
Defined.

(** ** The session state along a run *)

(** Closes a case of a transition by naming where it arrives. *)
Ltac arrive :=
  cbn [stdin stdout logfile commands existsb exn_eqb orb fst snd negb];
  try discriminate;
  let Heq := fresh "Heq" in
  intros Heq; injection Heq as <- <- <-;
  cbn [session_at]; try exact I; try reflexivity; eauto 6.

(** Splits on the next input event at a prompt. *)
Ltac read_to_arrive w :=
  let line := fresh "line" in
  let rest := fresh "rest" in
  destruct (stdin w) as [|[line|] rest];
  cbn [stdin stdout logfile commands existsb exn_eqb orb fst snd negb];
  [ arrive
  | destruct (start_over (strip line)); [arrive|]
  | arrive ].

Lemma wizard_step_keeps_session `{Env} (p : point) (st : session_state) (w : world)
    (p' : point) (st' : session_state) (w' : world) :
  session_at p st ->
  wizard_step p st w = (Ok (p', st'), w') ->
  session_at p' st'.
Proof.
  unfold wizard_step, try_except_M.
  destruct p as [|a|a|a o|a o f|a o f k|a o f k l|]; cbn [session_at]; unfold wizard_body.
  - (* the top of the loop *)
    intros ->. unfold bind, print, emit, input, ret.
    cbn [stdin stdout logfile commands ss_org_alias empty_session].
    read_to_arrive w. arrive.
  - (* authentication *)
    intros ->. unfold bind.
    destruct (authenticate_org a w) as [[ok|e] w1].
    + destruct ok; unfold print, emit, ret; arrive.
    + destruct e; unfold bind, print, emit, ret; arrive.
  - (* the object name *)
    intros ->. unfold bind, input, print, emit, ret.
    cbn [stdin stdout logfile commands ss_object_name].
    read_to_arrive w. arrive.
  - (* the fields *)
    intros ->. unfold bind, input, print, emit, ret.
    cbn [stdin stdout logfile commands ss_fields].
    read_to_arrive w. arrive.
  - (* the keyword *)
    intros (raw & -> & ->). unfold bind, input, print, emit, ret.
    cbn [stdin stdout logfile commands ss_keyword].
    read_to_arrive w. arrive.
  - (* the limit *)
    intros (raw & -> & ->). unfold bind, input, print, emit, ret, lift.
    cbn [stdin stdout logfile commands ss_limit].
    read_to_arrive w.
    destruct (mem (lower (strip line)) ["all"; EmptyString]) eqn:Hmem.
    + arrive. exists raw, (strip line), None. unfold stored_limit. now rewrite Hmem.
    + destruct (py_int (strip line)) as [n|] eqn:Hint; [|arrive].
      arrive. exists raw, (strip line), (Some n). unfold stored_limit.
      now rewrite Hmem, Hint.
  - (* the search *)
    intros _. unfold bind at 1, print, emit. unfold bind at 1.
    destruct (SF_record_search o a (Some k) l f _) as [[r|e] w1].
    + unfold bind, print_result, print, print_table, emit, ret. destruct r; arrive.
    + destruct e; unfold bind, print, emit, ret; arrive.
  - intros _. unfold ret. arrive.
Qed.

(** Along every run of [main] the session state is the one that belongs
    to the program point: exactly the keys of the steps already passed.  In
    particular it is empty at the top of the loop, and every collection step
    finds its key missing and asks: the branches that read a value back
    from the session state never run. *)
Theorem session_follows_the_steps `{Env} :
  forall w0 p st w,
    reachable w0 p st w ->
    session_at p st
    /\ (p = CollectOrgAlias -> st = empty_session)
    /\ (asks p <> [] -> awaits_input p st).
Proof.
  intros w0 p st w Hreach.
  assert (Hat : session_at p st).
  { induction Hreach as [|p st w p' st' w' _ IH Hstep]; [reflexivity|].
    exact (wizard_step_keeps_session p st w p' st' w' IH Hstep). }
  split; [exact Hat|]. split.
  - intros ->. exact Hat.
  - intros Hasks.
    destruct p as [|a|a|a o|a o f|a o f k|a o f k l|]; cbn [session_at asks] in *;
      try congruence.
    + now rewrite Hat.
    + now rewrite Hat.
    + now rewrite Hat.
    + destruct Hat as (raw & _ & ->). reflexivity.
    + destruct Hat as (raw & _ & ->). reflexivity.
Qed.

Lemma session_follows_the_steps_witness :
  @session_at Demo.env (Authenticate "Nope") (mkSession (Some "Nope") None None None None)
  /\ @session_at Demo.env CollectOrgAlias empty_session.
Proof.
  assert (H1 : @reachable Demo.env (Demo.world0 [Line "Nope"; Line "MyOrg"])
                 (Authenticate "Nope") (mkSession (Some "Nope") None None None None)
                 (answered CollectOrgAlias [Line "MyOrg"]
                    (Demo.world0 [Line "Nope"; Line "MyOrg"]))).
  { eapply reach_step; [apply reach_start | reflexivity]. }
  assert (H2 : @reachable Demo.env (Demo.world0 [Line "Nope"; Line "MyOrg"])
                 CollectOrgAlias empty_session
                 (snd (@wizard_step Demo.env (Authenticate "Nope")
                         (mkSession (Some "Nope") None None None None)
                         (answered CollectOrgAlias [Line "MyOrg"]
                            (Demo.world0 [Line "Nope"; Line "MyOrg"]))))).
  { eapply reach_step; [exact H1 | reflexivity]. }
  split.
  - exact (proj1 (@session_follows_the_steps Demo.env _ _ _ _ H1)).
  - exact (proj1 (@session_follows_the_steps Demo.env _ _ _ _ H2)).
Defined.

(** ** What the operations touch *)

Lemma authenticate_org_world `{Env} (org_alias : string) (w : world) :
  exists entries,
    snd (authenticate_org org_alias w)
    = mkWorld (stdin w) (stdout w) (logfile w ++ entries) (commands w ++ [auth_command]).
Proof.
  destruct (run_command_returns auth_command w) as (text & more & Hrun).
  rewrite (authenticate_org_runs org_alias w _ _ Hrun).
  exists more. now destruct (startswith "Error:" text).
Qed.

(** [authenticate_org] and [fetch_objects] run one command each and, like
    [SF_record_search], neither read the keyboard nor write to the terminal:
    whatever they find is handed back to the caller.  [describe_object]
    runs one command and does not read the keyboard. *)
Theorem operations_leave_terminal_alone `{Env} :
  forall org_alias object_name target_org keyword limit fields w,
    let w1 := snd (authenticate_org org_alias w) in
    let w2 := snd (fetch_objects org_alias w) in
    let w3 := snd (describe_object org_alias object_name w) in
    let w4 := snd (SF_record_search object_name target_org keyword limit fields w) in
    (stdin w1 = stdin w /\ stdout w1 = stdout w
     /\ commands w1 = (commands w ++ [auth_command])%list)
    /\ (stdin w2 = stdin w /\ stdout w2 = stdout w
        /\ commands w2 = (commands w ++ [list_command org_alias])%list)
    /\ (stdin w3 = stdin w
        /\ commands w3 = (commands w ++ [describe_command org_alias object_name])%list)
    /\ (stdin w4 = stdin w /\ stdout w4 = stdout w).
Proof.
  intros org_alias object_name target_org keyword limit fields w w1 w2 w3 w4.
  split; [|split; [|split]].
  - destruct (authenticate_org_world org_alias w) as [entries Hw].
    unfold w1. rewrite Hw. now repeat split.
  - destruct (run_command_returns (list_command org_alias) w) as (text & more & Hrun).
    unfold w2, fetch_objects, bind, lift, ret. rewrite Hrun.
    destruct (startswith "Error:" text); now repeat split.
  - destruct (run_command_returns (describe_command org_alias object_name) w)
      as (text & more & Hrun).
    unfold w3, describe_object, try_except_M, bind, lift, print, print_table, emit,
      logging, ret.
    rewrite Hrun.
    destruct (startswith "Error:" text); [now split|].
    destruct (let? j := loads text in
              let? r := py_getitem j "result" in py_getitem r "fields") as [fs|e].
    2:{ destruct (existsb (exn_eqb e) [JSONDecodeError; KeyError]); now split. }
    destruct (let? l := py_iter fs in describe_rows l describe_table []) as [built|e].
    2:{ destruct (existsb (exn_eqb e) [JSONDecodeError; KeyError]); now split. }
    destruct (let? l := py_iter fs in py_map (fun field => py_getitem field "name") l)
      as [names|e]; [now split|].
    destruct (existsb (exn_eqb e) [JSONDecodeError; KeyError]); now split.
  - split; [apply SF_record_search_stdin|].
    unfold w4. destruct keyword as [[|c k]|]; try reflexivity.
    set (query := build_query object_name (String c k) limit fields).
    destruct (run_command_returns (search_command query target_org) (logged query w))
      as (text & more & Hrun).
    rewrite (SF_record_search_runs object_name target_org (String c k) limit fields w
               ltac:(discriminate) _ _ Hrun).
    destruct (startswith "Error:" text); [reflexivity|].
    unfold try_except_M, lift.
    destruct (search_table (fields_or_default fields) text) as [r|e]; [reflexivity|].
    now destruct (existsb (exn_eqb e) [JSONDecodeError; KeyError]).
Qed.

(** ** A complete pass through the wizard *)

(** Five lines, none of them "start over", an org that authenticates and
    a limit that [int] accepts (or "all", or nothing): [main] then asks its
    five questions once, runs the auth list and one search, prints what the
    search returned and ends with the five keys stored.  The search gets the
    typed texts: the fields and the limit as text, not the list and the
    number stored.  An exception raised by the search ends [main]. *)
Theorem main_complete_pass `{Env} :
  forall w l1 l2 l3 l4 l5 rest w2 v extra,
    stdin w = Line l1 :: Line l2 :: Line l3 :: Line l4 :: Line l5 :: rest ->
    let org_alias := strip l1 in
    let object_name := strip l2 in
    let fields := strip l3 in
    let keyword := strip l4 in
    let limit := strip l5 in
    start_over org_alias = false ->
    start_over object_name = false ->
    start_over fields = false ->
    start_over keyword = false ->
    start_over limit = false ->
    authenticate_org org_alias
      (answered CollectOrgAlias (Line l2 :: Line l3 :: Line l4 :: Line l5 :: rest) w)
    = (Ok true, w2) ->
    stored_limit limit = Some v ->
    let st := mkSession (Some org_alias) (Some object_name) (Some (stored_fields fields))
                (Some keyword) (Some v) in
    let w5 := mkWorld rest
                (stdout w2 ++
                 [Prompt "Enter the object name (or part of it) to search: ";
                  Prompt "Enter fields to query (comma-separated, or 'all-required'): ";
                  Prompt "Enter keyword to search: ";
                  Prompt "Enter the number of records to return (or 'All' for no limit): ";
                  Printed (nl ++ "Searching..." ++ nl)])
                (logfile w2) (commands w2) in
    main (7 + extra) w
    = match SF_record_search object_name org_alias (Some keyword) (LStr limit)
              (FStr fields) w5 with
      | (Ok r, w6) => (Ok (Some st), snd (print_result r w6))
      | (Raise e, w6) => (Raise e, w6)
      end
    /\ commands w5 = (commands w ++ [auth_command])%list.
Proof.
  intros w l1 l2 l3 l4 l5 rest w2 v extra Hin org_alias object_name fields keyword limit
    Ho1 Ho2 Ho3 Ho4 Ho5 Hauth Hlimit st w5.
  destruct (authenticate_org_world org_alias
              (answered CollectOrgAlias (Line l2 :: Line l3 :: Line l4 :: Line l5 :: rest) w))
    as [entries Hw2].
  rewrite Hauth in Hw2. cbn [snd answered stdin stdout logfile commands] in Hw2.
  split; [|unfold w5; cbn [commands]; now rewrite Hw2].
  set (s1 := mkSession (Some org_alias) None None None None).
  set (s2 := mkSession (Some org_alias) (Some object_name) None None None).
  set (s3 := mkSession (Some org_alias) (Some object_name) (Some (stored_fields fields))
               None None).
  set (s4 := mkSession (Some org_alias) (Some object_name) (Some (stored_fields fields))
               (Some keyword) None).
  assert (Hin2 : stdin w2 = Line l2 :: Line l3 :: Line l4 :: Line l5 :: rest)
    by now rewrite Hw2.
  set (w3 := answered (CollectObjectName org_alias) (Line l3 :: Line l4 :: Line l5 :: rest) w2).
  set (w4 := answered (CollectFields org_alias object_name) (Line l4 :: Line l5 :: rest) w3).
  set (w4' := answered (CollectKeyword org_alias object_name (FStr fields))
                (Line l5 :: rest) w4).
  set (w4'' := answered (CollectLimit org_alias object_name (FStr fields) keyword) rest w4').
  assert (E1 : wizard_step CollectOrgAlias empty_session w
               = (Ok (Authenticate org_alias, s1),
                  answered CollectOrgAlias
                    (Line l2 :: Line l3 :: Line l4 :: Line l5 :: rest) w)).
  { unfold wizard_step, try_except_M, wizard_body, bind, print, emit, input, ret, answered.
    cbn [ss_org_alias empty_session stdin stdout logfile commands asks].
    rewrite Hin. fold org_alias. rewrite Ho1. now rewrite <- app_assoc. }
  assert (E2 : wizard_step (Authenticate org_alias) s1
                 (answered CollectOrgAlias
                    (Line l2 :: Line l3 :: Line l4 :: Line l5 :: rest) w)
               = (Ok (CollectObjectName org_alias, s1), w2)).
  { unfold wizard_step, try_except_M, wizard_body, bind. now rewrite Hauth. }
  assert (E3 : wizard_step (CollectObjectName org_alias) s1 w2
               = (Ok (CollectFields org_alias object_name, s2), w3)).
  { unfold wizard_step, try_except_M, wizard_body, bind, input, ret, w3, answered.
    cbn [ss_object_name s1 asks]. rewrite Hin2. fold object_name. now rewrite Ho2. }
  assert (E4 : wizard_step (CollectFields org_alias object_name) s2 w3
               = (Ok (CollectKeyword org_alias object_name (FStr fields), s3), w4)).
  { unfold wizard_step, try_except_M, wizard_body, bind, input, ret, w4, answered.
    cbn [ss_fields s2 asks stdin w3 answered]. fold fields. now rewrite Ho3. }
  assert (E5 : wizard_step (CollectKeyword org_alias object_name (FStr fields)) s3 w4
               = (Ok (CollectLimit org_alias object_name (FStr fields) keyword, s4), w4')).
  { unfold wizard_step, try_except_M, wizard_body, bind, input, ret, w4', answered.
    cbn [ss_keyword s3 asks stdin w4 answered]. fold keyword. now rewrite Ho4. }
  assert (E6 : wizard_step (CollectLimit org_alias object_name (FStr fields) keyword) s4 w4'
               = (Ok (Execute org_alias object_name (FStr fields) keyword (LStr limit), st),
                  w4'')).
  { unfold wizard_step, try_except_M, wizard_body, bind, input, ret, lift, w4'', answered.
    cbn [ss_limit s4 asks stdin w4' answered]. fold limit. rewrite Ho5.
    unfold stored_limit in Hlimit.
    destruct (mem (lower limit) ["all"; EmptyString]).
    - now injection Hlimit as <-.
    - destruct (py_int limit) as [n|]; [|discriminate]. now injection Hlimit as <-. }
  assert (Hw5 : mkWorld (stdin w4'')
                  (stdout w4'' ++ [Printed (nl ++ "Searching..." ++ nl)])
                  (logfile w4'') (commands w4'') = w5).
  { unfold w5, w4'', w4', w4, w3, answered.
    cbn [stdin stdout logfile commands asks]. now rewrite <- !app_assoc. }
  assert (E7 : wizard_step (Execute org_alias object_name (FStr fields) keyword (LStr limit))
                 st w4''
               = match SF_record_search object_name org_alias (Some keyword) (LStr limit)
                         (FStr fields) w5 with
                 | (Ok r, w6) => (Ok (Terminal, st), snd (print_result r w6))
                 | (Raise e, w6) => (Raise e, w6)
                 end).
  { unfold wizard_step, try_except_M, wizard_body.
    unfold bind at 1, print at 1, emit at 1. rewrite Hw5. unfold bind at 1.
    pose proof (SF_record_search_raises object_name org_alias (Some keyword) (LStr limit)
                  (FStr fields) w5) as Hraises.
    destruct (SF_record_search object_name org_alias (Some keyword) (LStr limit)
                (FStr fields) w5) as [[r|e] w6].
    - unfold bind, ret. now destruct r.
    - destruct e; simpl in Hraises; try discriminate; reflexivity. }
  unfold main. change (7 + extra)%nat with (S (S (S (S (S (S (S extra))))))).
  rewrite (main_loop_step _ CollectOrgAlias _ _ _ _ _ ltac:(discriminate) E1).
  rewrite (main_loop_step _ (Authenticate org_alias) _ _ _ _ _ ltac:(discriminate) E2).
  rewrite (main_loop_step _ (CollectObjectName org_alias) _ _ _ _ _ ltac:(discriminate) E3).
  rewrite (main_loop_step _ (CollectFields org_alias object_name) _ _ _ _ _ ltac:(discriminate) E4).
  rewrite (main_loop_step _ (CollectKeyword org_alias object_name (FStr fields)) _ _ _ _ _ ltac:(discriminate) E5).
  rewrite (main_loop_step _ (CollectLimit org_alias object_name (FStr fields) keyword) _ _ _ _ _ ltac:(discriminate) E6).
  destruct (SF_record_search object_name org_alias (Some keyword) (LStr limit)
              (FStr fields) w5) as [[r|e] w6] eqn:Hsearch.
  - rewrite (main_loop_step _ (Execute org_alias object_name (FStr fields) keyword (LStr limit)) _ _ _ _ _ ltac:(discriminate) E7). now destruct extra.
  - now rewrite (main_loop_raises _ (Execute org_alias object_name (FStr fields) keyword (LStr limit)) _ _ _ _ ltac:(discriminate) E7).
Qed.

Lemma main_complete_pass_witness :
  let w := Demo.world0 [Line "MyOrg"; Line "Account"; Line "Id,Name";
                        Line "Acme Corp"; Line "10"] in
  fst (@main Demo.env 7 w)
  = Ok (Some (mkSession (Some "MyOrg") (Some "Account") (Some (Some ["Id"; "Name"]))
                (Some "Acme Corp") (Some (Some 10%Z))))
  /\ commands (snd (@main Demo.env 7 w))
     = [auth_command;
        search_command (build_query "Account" "Acme Corp" (LStr "10") (FStr "Id,Name"))
          "MyOrg"].
Proof.
  cbv zeta.
  destruct (@main_complete_pass Demo.env
              (Demo.world0 [Line "MyOrg"; Line "Account"; Line "Id,Name";
                            Line "Acme Corp"; Line "10"])
              "MyOrg" "Account" "Id,Name" "Acme Corp" "10" []
              (mkWorld [Line "Account"; Line "Id,Name"; Line "Acme Corp"; Line "10"]
                 [Printed (nl ++ "Welcome to SF Record Search!");
                  Prompt "Enter Salesforce org alias (e.g., MyOrg): "] [] [auth_command])
              (Some 10%Z) 0%nat eq_refl eq_refl eq_refl eq_refl eq_refl eq_refl
              eq_refl eq_refl) as [Hmain _].
  change (7 + 0)%nat with 7%nat in Hmain. rewrite Hmain.
  split; reflexivity.
Defined.

(** ** The limit typed and the limit sent *)

(** For a line such as "ALL" or an empty line the wizard stores [None]
    under "limit", yet the search receives the text itself, which is neither
    "All" nor "all": the query then carries a limit clause made of that text,
    "LIMIT ALL" or a bare "LIMIT ". *)
Theorem typed_limit_reaches_query `{Env} :
  forall org_alias object_name fields keyword st w line rest,
    ss_limit st = None ->
    stdin w = Line line :: rest ->
    let limit := strip line in
    let here := CollectLimit org_alias object_name fields keyword in
    start_over limit = false ->
    limit = EmptyString \/ lower limit = "all" ->
    limit <> "All" -> limit <> "all" ->
    wizard_step here st w
    = (Ok (Execute org_alias object_name fields keyword (LStr limit), set_limit st None),
       answered here rest w)
    /\ build_query object_name keyword (LStr limit) fields
       = keyword_conditions keyword ++ " RETURNING " ++ object_name ++ "("
           ++ join ", " (fields_or_default fields) ++ " LIMIT " ++ limit ++ ")".
Proof.
  intros org_alias object_name fields keyword st w line rest Hnone Hin limit here
    Hover Hall HnA Hna.
  split.
  - assert (Hmem : mem (lower limit) ["all"; EmptyString] = true).
    { unfold mem. cbn [existsb]. destruct Hall as [-> | ->]; reflexivity. }
    unfold wizard_step, try_except_M, wizard_body, here, bind, input, answered, ret, lift.
    cbn [asks]. rewrite Hnone, Hin. fold limit. now rewrite Hover, Hmem.
  - unfold build_query, limit_clause, mem. cbn [existsb].
    apply String.eqb_neq in HnA, Hna. rewrite HnA, Hna. cbn [orb].
    now rewrite !append_assoc.
Qed.

Lemma typed_limit_reaches_query_witness :
  let st := mkSession (Some "MyOrg") (Some "Account") (Some None) (Some "Acme") None in
  fst (@wizard_step Demo.env (CollectLimit "MyOrg" "Account" FNone "Acme") st
         (Demo.world0 [Line "ALL"]))
  = Ok (Execute "MyOrg" "Account" FNone "Acme" (LStr "ALL"),
        mkSession (Some "MyOrg") (Some "Account") (Some None) (Some "Acme") (Some None))
  /\ build_query "Account" "Acme" (LStr "ALL") FNone
     = "FIND {Acme} OR FIND {Acme} RETURNING Account(Id, Name LIMIT ALL)".
Proof.
  cbv zeta.
  destruct (@typed_limit_reaches_query Demo.env "MyOrg" "Account" FNone "Acme"
              (mkSession (Some "MyOrg") (Some "Account") (Some None) (Some "Acme") None)
              (Demo.world0 [Line "ALL"]) "ALL" [] eq_refl eq_refl eq_refl
              (or_intror eq_refl) ltac:(discriminate) ltac:(discriminate))
    as [Hstep Hquery].
  split; [now rewrite Hstep | exact Hquery].
Defined.

(** ** The commands of a run *)

Lemma SF_record_search_commands `{Env} object_name target_org keyword limit fields w :
  let w' := snd (SF_record_search object_name target_org keyword limit fields w) in
  commands w' = commands w
  \/ exists query, commands w' = (commands w ++ [search_command query target_org])%list.
Proof.
  destruct keyword as [[|c k]|]; try (now left).
  right. set (query := build_query object_name (String c k) limit fields).
  destruct (run_command_returns (search_command query target_org) (logged query w))
    as (text & more & Hrun).
  rewrite (SF_record_search_runs object_name target_org (String c k) limit fields w
             ltac:(discriminate) _ _ Hrun).
  exists query.
  destruct (startswith "Error:" text); [reflexivity|].
  unfold try_except_M, lift.
  destruct (search_table (fields_or_default fields) text) as [r|e]; [reflexivity|].
  now destruct (existsb (exn_eqb e) [JSONDecodeError; KeyError]).
Qed.

(** Closes a case of a transition that runs no command. *)
Ltac quiet :=
  cbn [stdin stdout logfile commands existsb exn_eqb orb fst snd negb];
  try discriminate;
  let Heq := fresh "Heq" in
  intros Heq; injection Heq as <- <- <-;
  cbn [stdin stdout logfile commands]; try reflexivity.

(** Splits on the next input event at a prompt. *)
Ltac read_quietly w :=
  let line := fresh "line" in
  let rest := fresh "rest" in
  destruct (stdin w) as [|[line|] rest];
  cbn [stdin stdout logfile commands existsb exn_eqb orb fst snd negb];
  [ quiet
  | destruct (start_over (strip line)); [quiet|]
  | quiet ].

(** What one transition adds to the commands run. *)
Lemma wizard_step_commands `{Env} (p : point) (st : session_state) (w : world)
    (p' : point) (st' : session_state) (w' : world) :
  wizard_step p st w = (Ok (p', st'), w') ->
  match p with
  | Authenticate _ => commands w' = (commands w ++ [auth_command])%list
  | Execute org_alias _ _ _ _ =>
      p' = Terminal
      /\ (commands w' = commands w
          \/ exists query, commands w' = (commands w ++ [search_command query org_alias])%list)
  | Terminal => p' = Terminal /\ commands w' = commands w
  | _ => commands w' = commands w
  end.
Proof.
  unfold wizard_step, try_except_M.
  destruct p as [|a|a|a o|a o f|a o f k|a o f k l|]; unfold wizard_body.
  - unfold bind, print, emit, input, ret. cbn [stdin stdout logfile commands].
    destruct (ss_org_alias st); [quiet|]. read_quietly w. quiet.
  - unfold bind. destruct (authenticate_org_world a w) as [entries Hw].
    destruct (authenticate_org a w) as [[ok|e] w1]; cbn [snd] in Hw; subst w1.
    + destruct ok; unfold print, emit, ret; quiet.
    + destruct e; unfold bind, print, emit, ret; quiet.
  - unfold bind, input, print, emit, ret. cbn [stdin stdout logfile commands].
    destruct (ss_object_name st); [quiet|]. read_quietly w. quiet.
  - unfold bind, input, print, emit, ret. cbn [stdin stdout logfile commands].
    destruct (ss_fields st) as [[v|]|]; [quiet | quiet |]. read_quietly w. quiet.
  - unfold bind, input, print, emit, ret. cbn [stdin stdout logfile commands].
    destruct (ss_keyword st); [quiet|]. read_quietly w. quiet.
  - unfold bind, input, print, emit, ret, lift. cbn [stdin stdout logfile commands].
    destruct (ss_limit st) as [[v|]|]; [quiet | quiet |]. read_quietly w.
    destruct (mem (lower (strip line)) ["all"; EmptyString]); [quiet|].
    destruct (py_int (strip line)); quiet.
  - unfold bind at 1, print, emit. unfold bind at 1.
    pose proof (SF_record_search_commands o a (Some k) l f
                  (mkWorld (stdin w) (stdout w ++ [Printed (nl ++ "Searching..." ++ nl)])
                     (logfile w) (commands w))) as Hcmd.
    cbv zeta in Hcmd.
    destruct (SF_record_search o a (Some k) l f _) as [[r|e] w1];
      cbn [snd commands] in Hcmd.
    + unfold bind, print_result, print, print_table, emit, ret.
      destruct r; quiet; (split; [reflexivity | exact Hcmd]).
    + destruct e; unfold bind, print, emit, ret; quiet.
      split; [reflexivity | exact Hcmd].
  - unfold ret. quiet. now split.
Qed.

(** Every run of [main] issues auth-list commands and then at most one
    search, which is the last thing it does: the program is over once a
    search has run.  It never lists or describes the objects of the org;
    [fetch_objects] and [describe_object] are not called. *)
Theorem main_runs_auth_then_one_search `{Env} :
  forall w0 p st w,
    reachable w0 p st w ->
    exists issued,
      commands w = (commands w0 ++ issued)%list
      /\ auth_then_search p issued.
Proof.
  intros w0 p st w Hreach.
  induction Hreach as [|p st w p' st' w' _ IH Hstep].
  - exists []. split; [now rewrite app_nil_r|]. exists 0%nat. now left.
  - destruct IH as (issued & Hcmds & n & Hissued).
    pose proof (wizard_step_commands p st w p' st' w' Hstep) as Hadd.
    destruct p as [|a|a|a o|a o f|a o f k|a o f k l|];
      try (destruct Hissued as [-> | (Hp & _)]; [|discriminate];
           exists (repeat auth_command n); split; [congruence|]; exists n; now left).
    + (* authentication *)
      destruct Hissued as [-> | (Hp & _)]; [|discriminate].
      exists (repeat auth_command n ++ [auth_command])%list.
      split; [rewrite Hadd, Hcmds; now rewrite app_assoc|].
      exists (S n). left. now rewrite <- repeat_cons.
    + (* the search *)
      destruct Hissued as [-> | (Hp & _)]; [|discriminate].
      destruct Hadd as [-> [Hsame | (query & Hone)]].
      * exists (repeat auth_command n). split; [congruence|]. exists n. now left.
      * exists (repeat auth_command n ++ [search_command query a])%list.
        split; [rewrite Hone, Hcmds; now rewrite app_assoc|].
        exists n. right. split; [reflexivity|]. now exists query, a.
    + (* after the end *)
      destruct Hadd as [-> Hsame]. exists issued. split; [congruence|]. now exists n.
Qed.

Lemma main_runs_auth_then_one_search_witness :
  exists issued,
    [auth_command] = ([] ++ issued)%list
    /\ auth_then_search (CollectOrgAlias) issued.
Proof.
  apply (@main_runs_auth_then_one_search Demo.env (Demo.world0 [Line "Nope"])
           CollectOrgAlias empty_session
           (mkWorld [] [Printed (nl ++ "Welcome to SF Record Search!");
                        Prompt "Enter Salesforce org alias (e.g., MyOrg): ";
                        Printed "Error: Unable to authenticate. Try again."]
              [] [auth_command])).
  eapply reach_step; [eapply reach_step; [apply reach_start | reflexivity] | reflexivity].
Defined.
